(** * mcp-logic: the Prover9 input-file parser, the input-file synthesizer
      and the prover runner, embedded and verified

    The development follows [src/mcp_logic/file_parser.py] and
    [src/mcp_logic/server.py].

    Text.  A Python [str] is modelled as a list of characters, a character
    being a code point below 256 (the type [ascii]).  On that range the
    whitespace class of [str.strip], [str.isspace] and of the regular
    expression escape [\s] is the same set (9..13, 28..32, 133, 160),
    [str.lower] moves A..Z and the Latin-1 capitals by 32, and a literal of a
    pattern compiled with [re.IGNORECASE] matches exactly the characters with
    the same lower-case form.  Beyond that range this is no longer so
    ([str.lower] of U+0130 is two characters, and [re.IGNORECASE] takes
    U+0130 and U+0131 for "i" and U+017F for "s"): every statement of this
    development is about texts of code points below 256, and says so where
    the letter case of a text matters to it.

    Effects.  [_create_input_file] and [_run_prover] act on a file system and
    start a process; they are functions over an explicit [world], and Python
    exceptions are an explicit outcome.  The file system maps the path of a
    file to the text that reading the file in text mode gives.  The
    directory of temporary files is taken to accept a new file and what is
    written to it, so that [tempfile.mkstemp] gives a path and a write fails
    only when the encoding of the locale refuses the text; what the external
    program does, and what the removal of a file does, is not restricted.
    The calls of [logger] are left out. *)

From Stdlib Require Import List Ascii String Bool Arith Lia.
From stdpp Require Import gmap strings pretty.
Import ListNotations.

Local Open Scope list_scope.
Local Open Scope nat_scope.

(** ** Python strings *)

Module PyStr.

Definition str := list ascii.

(** A literal of the source, as a character list. *)
Definition txt (s : string) : str := list_ascii_of_string s.

Definition chr_eqb (a b : ascii) : bool := Ascii.eqb a b.
Arguments chr_eqb : simpl never.

(** [str.isspace] on one character (and the class [\s] of [re]). *)
Definition isspace (c : ascii) : bool :=
  let n := nat_of_ascii c in
  ((9 <=? n) && (n <=? 13)) || ((28 <=? n) && (n <=? 32))
  || (n =? 133) || (n =? 160).

(** [str.lower] on one character of the range (code points below 256): one
    character again. *)
Definition lower_chr (c : ascii) : ascii :=
  let n := nat_of_ascii c in
  if ((65 <=? n) && (n <=? 90))
     || ((192 <=? n) && (n <=? 222) && negb (n =? 215))
  then ascii_of_nat (n + 32) else c.

Definition lower (s : str) : str := map lower_chr s.

(** [s.lstrip()], [s.rstrip()], [s.strip()]. *)
Fixpoint lstrip (s : str) : str :=
  match s with
  | c :: s' => if isspace c then lstrip s' else s
  | [] => []
  end.

Definition rstrip (s : str) : str := rev (lstrip (rev s)).

Definition strip (s : str) : str := rstrip (lstrip s).

(** [s.startswith(p)] and [s.endswith(p)]. *)
Fixpoint startswith (p s : str) : bool :=
  match p, s with
  | [], _ => true
  | a :: p', b :: s' => chr_eqb a b && startswith p' s'
  | _ :: _, [] => false
  end.

Definition endswith (p s : str) : bool := startswith (rev p) (rev s).

(** [p in s]: [p] occurs in [s] as a substring. *)
Fixpoint contains (p s : str) : bool :=
  startswith p s ||
  match s with
  | [] => false
  | _ :: s' => contains p s'
  end.

(** [c in s] for one character. *)
Definition has_chr (c : ascii) (s : str) : bool := existsb (chr_eqb c) s.

(** [sep.join(parts)]. *)
Fixpoint join (sep : str) (parts : list str) : str :=
  match parts with
  | [] => []
  | [x] => x
  | x :: rest => x ++ sep ++ join sep rest
  end.

(** [s.split(sep)] for a separator that is not empty: the pieces between the
    occurrences of [sep], found from left to right without overlap.  [skip]
    counts the characters of an occurrence still to be passed, [acc] holds
    the current piece, reversed. *)
Fixpoint split_go (sep : str) (skip : nat) (acc : str) (s : str) : list str :=
  match s with
  | [] => [rev acc]
  | c :: s' =>
      match skip with
      | S k => split_go sep k acc s'
      | O =>
          if startswith sep s
          then rev acc :: split_go sep (length sep - 1) [] s'
          else split_go sep 0 (c :: acc) s'
      end
  end.

Definition split (sep : str) (s : str) : list str := split_go sep 0 [] s.

(** [s.partition(sep)], as an option: the text before and after the first
    occurrence of [sep], or [None] when there is none. *)
Fixpoint partition (sep : str) (s : str) : option (str * str) :=
  if startswith sep s then Some ([], skipn (length sep) s)
  else match s with
       | [] => None
       | c :: s' =>
           match partition sep s' with
           | Some (a, b) => Some (c :: a, b)
           | None => None
           end
       end.

(** The text before the first occurrence of [sep]; all of [s] without one. *)
Definition before (sep : str) (s : str) : str :=
  match partition sep s with
  | Some (a, _) => a
  | None => s
  end.

(** The number of periods a text ends with. *)
Fixpoint leading_dots (s : str) : nat :=
  match s with
  | c :: s' => if chr_eqb c "."%char then S (leading_dots s') else 0
  | [] => 0
  end.

Definition trailing_dots (s : str) : nat := leading_dots (rev s).

(** A text of ASCII characters: every encoding of a locale takes it. *)
Definition is_ascii (s : str) : bool :=
  forallb (fun c => nat_of_ascii c <? 128) s.

(** The text that reading in text mode gives for a text written: a line end
    written as "\r\n" or as "\r" is read as "\n". *)
Fixpoint universal_newlines (s : str) : str :=
  match s with
  | [] => []
  | c :: s' =>
      if chr_eqb c "013" then
        "010"%char ::
        match s' with
        | d :: s'' =>
            if chr_eqb d "010" then universal_newlines s''
            else universal_newlines s'
        | [] => []
        end
      else c :: universal_newlines s'
  end.

End PyStr.

(** ** The fragment of Python's [re] that the parser uses

    A pattern is a sequence of items: one character of a class, a starred
    class ([c*] greedy, [c*?] lazy), and the two parentheses of capture
    group 1.  The matcher is the backtracking matcher of [re]: it explores
    the alternatives of every star in priority order (longest first for a
    greedy star, shortest first for a lazy one) and answers with the first
    complete match. *)

Module Re.
Import PyStr.

Inductive cls : Type :=
| Any                 (* .   *)
| Space               (* \s  *)
| Chr (c : ascii).    (* a literal character, escaped or not *)

Inductive item : Type :=
| One (c : cls)
| Star (greedy : bool) (c : cls)
| Open
| Close.

Definition pattern := list item.

Record flags := { IGNORECASE : bool; DOTALL : bool }.

Definition no_flags : flags := {| IGNORECASE := false; DOTALL := false |}.

(** Whether character [x] of the subject belongs to class [c].  On the
    range (code points below 256) a literal of a pattern compiled with
    IGNORECASE takes the characters with its lower-case form, and no
    others. *)
Definition accepts (fl : flags) (c : cls) (x : ascii) : bool :=
  match c with
  | Any => DOTALL fl || negb (chr_eqb x "010"%char)
  | Space => isspace x
  | Chr a =>
      if IGNORECASE fl then chr_eqb (lower_chr a) (lower_chr x)
      else chr_eqb a x
  end.

(** The state of a match attempt: the text of group 1 while its parenthesis
    is open (reversed), and the text of group 1 once it is closed. *)
Record mstate := { opened : option str; group1 : option str }.

Definition init : mstate := {| opened := None; group1 := None |}.

Definition consume (x : ascii) (st : mstate) : mstate :=
  match opened st with
  | Some acc => {| opened := Some (x :: acc); group1 := group1 st |}
  | None => st
  end.

Definition open_group (st : mstate) : mstate :=
  {| opened := Some []; group1 := group1 st |}.

Definition close_group (st : mstate) : mstate :=
  match opened st with
  | Some acc => {| opened := None; group1 := Some (rev acc) |}
  | None => st
  end.

(** A continuation: the rest of the pattern, run on a state and the rest of
    the subject; it answers with the final state and the unmatched rest. *)
Definition cont := mstate -> str -> option (mstate * str).

Fixpoint star (greedy : bool) (ok : ascii -> bool) (k : cont)
    (st : mstate) (s : str) : option (mstate * str) :=
  match s with
  | x :: s' =>
      if ok x then
        if greedy then
          match star greedy ok k (consume x st) s' with
          | Some r => Some r
          | None => k st s
          end
        else
          match k st s with
          | Some r => Some r
          | None => star greedy ok k (consume x st) s'
          end
      else k st s
  | [] => k st s
  end.

Fixpoint matcher (fl : flags) (p : pattern) : cont :=
  match p with
  | [] => fun st s => Some (st, s)
  | One c :: p' =>
      fun st s =>
        match s with
        | x :: s' =>
            if accepts fl c x then matcher fl p' (consume x st) s' else None
        | [] => None
        end
  | Star g c :: p' => star g (accepts fl c) (matcher fl p')
  | Open :: p' => fun st s => matcher fl p' (open_group st) s
  | Close :: p' => fun st s => matcher fl p' (close_group st) s
  end.

(** [re.search(p, s, flags)]: the match at the leftmost position that has
    one; [None] when no position has. *)
Fixpoint search (fl : flags) (p : pattern) (s : str) : option mstate :=
  match matcher fl p init s with
  | Some (st, _) => Some st
  | None =>
      match s with
      | [] => None
      | _ :: s' => search fl p s'
      end
  end.

(** [m.group(1)] of a match whose group 1 took part in it. *)
Definition group (st : mstate) : str :=
  match group1 st with
  | Some g => g
  | None => []
  end.

(** [re.split(p, s)] for a pattern without groups whose matches are never
    empty: the pieces between the successive leftmost matches.  [skip]
    counts the characters of the current match still to be passed. *)
Fixpoint split_go (fl : flags) (p : pattern) (skip : nat) (acc : str)
    (s : str) : list str :=
  match s with
  | [] => [rev acc]
  | x :: s' =>
      match skip with
      | S k => split_go fl p k acc s'
      | O =>
          match matcher fl p init s with
          | Some (_, rest) =>
              match length s - length rest with
              | S k => rev acc :: split_go fl p k [] s'
              | O => split_go fl p 0 (x :: acc) s'
              end
          | None => split_go fl p 0 (x :: acc) s'
          end
      end
  end.

Definition split (fl : flags) (p : pattern) (s : str) : list str :=
  split_go fl p 0 [] s.

(** The items of a literal text. *)
Definition lits (s : string) : pattern := map (fun c => One (Chr c)) (txt s).

End Re.

(** ** file_parser.py *)

Module FileParser.
Import PyStr.

Definition nl : str := txt (String "010" "").

(** [r'formulas\(assumptions\)\.\s*(.*?)\s*end_of_list\.'] *)
Definition assumptions_re : Re.pattern :=
  Re.lits "formulas(assumptions)."
  ++ [Re.Star true Re.Space; Re.Open; Re.Star false Re.Any; Re.Close;
      Re.Star true Re.Space]
  ++ Re.lits "end_of_list.".

(** [r'formulas\(goals\)\.\s*(.*?)\s*end_of_list\.'] *)
Definition goals_re : Re.pattern :=
  Re.lits "formulas(goals)."
  ++ [Re.Star true Re.Space; Re.Open; Re.Star false Re.Any; Re.Close;
      Re.Star true Re.Space]
  ++ Re.lits "end_of_list.".

(** [r'\.\s*'] *)
Definition dot_re : Re.pattern := [Re.One (Re.Chr "."); Re.Star true Re.Space].

(** [re.DOTALL | re.IGNORECASE] *)
Definition search_flags : Re.flags :=
  {| Re.IGNORECASE := true; Re.DOTALL := true |}.

Definition nonempty (s : str) : bool :=
  match s with [] => false | _ :: _ => true end.

(** Lines 59-65: the lines of the content, stripped, without the empty ones
    and the comment lines, joined again. *)
Definition keep_line (line : str) : bool :=
  nonempty line && negb (startswith (txt "%") line).

Definition strip_comments (content : str) : str :=
  join nl (List.filter keep_line (map strip (split nl content))).

(** The test of lines 76 and 88. *)
Definition is_formula (f : str) : bool :=
  nonempty f && negb (startswith (txt "end") (lower f)).

(** A text that begins with the letters e, n, d, each in either case. *)
Definition begins_with_end (s : str) : bool :=
  match s with
  | a :: b :: c :: _ =>
      (chr_eqb a "e" || chr_eqb a "E")
      && (chr_eqb b "n" || chr_eqb b "N")
      && (chr_eqb c "d" || chr_eqb c "D")
  | _ => false
  end.

(** Lines 74-77: the loop that fills [premises]. *)
Fixpoint premises_loop (formulas : list str) : list str :=
  match formulas with
  | [] => []
  | formula :: rest =>
      let formula := strip formula in
      if is_formula formula then formula :: premises_loop rest
      else premises_loop rest
  end.

(** Lines 86-90: the loop that sets [conclusion] and breaks. *)
Fixpoint goals_loop (goals : list str) : option str :=
  match goals with
  | [] => None
  | goal :: rest =>
      let goal := strip goal in
      if is_formula goal then Some goal else goals_loop rest
  end.

(** Lines 71-77, on the text of group 1. *)
Definition premises_of_block (g : str) : list str :=
  let assumptions_block := strip g in
  premises_loop (Re.split Re.no_flags dot_re assumptions_block).

(** Lines 83-90, on the text of group 1. *)
Definition conclusion_of_block (g : str) : option str :=
  let goals_block := strip g in
  goals_loop (Re.split Re.no_flags dot_re goals_block).

Definition parse_content (content : str) : list str * option str :=
  let content := strip_comments content in
  let premises :=
    match Re.search search_flags assumptions_re content with
    | Some assumptions_match => premises_of_block (Re.group assumptions_match)
    | None => []
    end in
  let conclusion :=
    match Re.search search_flags goals_re content with
    | Some goals_match => conclusion_of_block (Re.group goals_match)
    | None => None
    end in
  (premises, conclusion).

End FileParser.

(** ** Exceptions, the file system and the effects of server.py *)

Module Py.
Import PyStr.

(** The exception classes that the runner can meet, with their base class. *)
Inductive exn_class : Type :=
| BaseException | Exception | KeyboardInterrupt
| OSError | FileNotFoundError | PermissionError | IsADirectoryError
| SubprocessError | TimeoutExpired
| LookupError | IndexError
| ValueError | UnicodeError | UnicodeEncodeError.

Definition base (c : exn_class) : option exn_class :=
  match c with
  | BaseException => None
  | Exception | KeyboardInterrupt => Some BaseException
  | OSError | SubprocessError | LookupError | ValueError => Some Exception
  | FileNotFoundError | PermissionError | IsADirectoryError => Some OSError
  | TimeoutExpired => Some SubprocessError
  | IndexError => Some LookupError
  | UnicodeError => Some ValueError
  | UnicodeEncodeError => Some UnicodeError
  end.

Definition class_eqb (a b : exn_class) : bool :=
  match a, b with
  | BaseException, BaseException | Exception, Exception
  | KeyboardInterrupt, KeyboardInterrupt | OSError, OSError
  | FileNotFoundError, FileNotFoundError | PermissionError, PermissionError
  | IsADirectoryError, IsADirectoryError
  | SubprocessError, SubprocessError | TimeoutExpired, TimeoutExpired
  | LookupError, LookupError | IndexError, IndexError
  | ValueError, ValueError | UnicodeError, UnicodeError
  | UnicodeEncodeError, UnicodeEncodeError => true
  | _, _ => false
  end.

(** [issubclass(c, b)]; no class is more than four steps below
    [BaseException]. *)
Fixpoint issubclass_fuel (n : nat) (c b : exn_class) : bool :=
  class_eqb c b ||
  match n, base c with
  | S n', Some c' => issubclass_fuel n' c' b
  | _, _ => false
  end.

Definition issubclass (c b : exn_class) : bool := issubclass_fuel 4 c b.

(** An exception: its class and the text of [str(e)]. *)
Record exn := { cls : exn_class; message : str }.

Inductive outcome (A : Type) : Type :=
| Ret (a : A)
| Raise (e : exn).
Arguments Ret {A} a.
Arguments Raise {A} e.

(** The error of a removal that the operating system refuses: a
    [PermissionError], an [IsADirectoryError], or an [OSError] of no
    narrower class, with its text. *)
Inductive refusal : Type :=
| Denied
| Directory
| Other (text : str).

Definition refusal_exn (r : refusal) : exn :=
  match r with
  | Denied => {| cls := PermissionError; message := txt "Permission denied" |}
  | Directory =>
      {| cls := IsADirectoryError; message := txt "Is a directory" |}
  | Other text => {| cls := OSError; message := text |}
  end.

(** The file system and the locale: the files, each with the text that
    reading it gives; the paths whose removal the operating system refuses,
    each with the error of the refusal; and, for a text that is not ASCII,
    the text of the [UnicodeEncodeError] that the encoding of the locale
    raises on it, if it does. *)
Record world := {
  files : gmap string str;
  locked : gmap string refusal;
  encode_error : str -> option str
}.

Definition M (A : Type) : Type := world -> outcome A * world.

Definition ret {A} (a : A) : M A := fun w => (Ret a, w).

Definition raise {A} (e : exn) : M A := fun w => (Raise e, w).

Definition bind {A B} (m : M A) (f : A -> M B) : M B :=
  fun w =>
    match m w with
    | (Ret a, w') => f a w'
    | (Raise e, w') => (Raise e, w')
    end.

Definition lift {A} (o : outcome A) : M A := fun w => (o, w).

(** [except C as e: h e], in the order of the source. *)
Definition handlers (A : Type) := list (exn_class * (exn -> M A)).

Fixpoint handle {A} (hs : handlers A) (e : exn) : M A :=
  match hs with
  | [] => raise e
  | (c, h) :: hs' => if issubclass (cls e) c then h e else handle hs' e
  end.

(** [try: body  except ...: ...] *)
Definition try_except {A} (body : M A) (hs : handlers A) : M A :=
  fun w =>
    match body w with
    | (Ret a, w') => (Ret a, w')
    | (Raise e, w') => handle hs e w'
    end.

(** [try: body  finally: fin]: [fin] runs on every exit of [body]; an
    exception of [fin] replaces the outcome of [body]. *)
Definition try_finally {A} (body : M A) (fin : M unit) : M A :=
  fun w =>
    match body w with
    | (o, w') =>
        match fin w' with
        | (Ret _, w'') => (o, w'')
        | (Raise e, w'') => (Raise e, w'')
        end
    end.

(** What [except Exception] takes: every outcome but an exception outside
    [Exception] (such as [KeyboardInterrupt]). *)
Definition returns_or_raises_Exception {A} (o : outcome A) : bool :=
  match o with
  | Ret _ => true
  | Raise e => issubclass (cls e) Exception
  end.

(** [l[i]] *)
Definition getitem {A} (l : list A) (i : nat) : outcome A :=
  match nth_error l i with
  | Some x => Ret x
  | None =>
      Raise {| cls := IndexError; message := txt "list index out of range" |}
  end.

(** [Path.unlink()] *)
Definition unlink (p : string) : M unit :=
  fun w =>
    match locked w !! p with
    | Some r => (Raise (refusal_exn r), w)
    | None =>
        match files w !! p with
        | None =>
            (Raise {| cls := FileNotFoundError;
                      message := txt "No such file or directory" |}, w)
        | Some _ =>
            (Ret tt, {| files := delete p (files w);
                        locked := locked w;
                        encode_error := encode_error w |})
        end
    end.

(** What the encoding of the locale raises on a text: nothing on an ASCII
    text. *)
Definition encoding_failure (w : world) (content : str) : option str :=
  if is_ascii content then None else encode_error w content.

(** [f.write(content)] on the file at [p], opened for writing in text mode:
    the text is encoded as a whole before any of it is written, so a text
    that the encoding refuses leaves the file as it was.  What the file
    then holds is the text as reading gives it (where the platform writes
    a line end as "\r\n", this is so for a text without "\r"). *)
Definition write_file (p : string) (content : str) : M unit :=
  fun w =>
    match encoding_failure w content with
    | Some text =>
        (Raise {| cls := UnicodeEncodeError; message := text |}, w)
    | None =>
        (Ret tt, {| files := <[p := universal_newlines content]> (files w);
                    locked := locked w;
                    encode_error := encode_error w |})
    end.

End Py.

(** ** server.py *)

Module Server.
Import PyStr Py.

Abbreviation dict := (gmap string str).

Record LogicEngine := { prover_path : string; prover_exe : string }.

(** What [subprocess.run(..., capture_output=True, text=True)] returns. *)
Record CompletedProcess := { stdout : str; stderr : str }.

(** [p if p.endswith(".") else p + "."] *)
Definition terminated (p : str) : str :=
  if endswith (txt ".") p then p else p ++ txt ".".

(** Lines 63-65: the list [content] and the text [input_content]. *)
Definition content_lines (premises : list str) (goal : str) : list str :=
  [txt "formulas(assumptions)."]
  ++ map terminated premises
  ++ [txt "end_of_list."; txt ""; txt "formulas(goals).";
      terminated goal; txt "end_of_list."].

Definition input_content (premises : list str) (goal : str) : str :=
  join (txt (String "010" "")) (content_lines premises goal).

(** The dictionaries of lines 88, 90, 92 and 94. *)
Definition proved_result (proof out : str) : dict :=
  list_to_map [("result", txt "proved"); ("proof", proof);
               ("complete_output", out)].

Definition unprovable_result (out : str) : dict :=
  list_to_map [("result", txt "unprovable");
               ("reason", txt "Proof search failed");
               ("complete_output", out)].

Definition syntax_error_result (err : str) : dict :=
  list_to_map [("result", txt "error"); ("reason", txt "Syntax error");
               ("error", err)].

Definition unexpected_result (out err : str) : dict :=
  list_to_map [("result", txt "error"); ("reason", txt "Unexpected output");
               ("output", out); ("error", err)].

(** Lines 86-94: the outcome of a run that completed.  The only exception
    that can arise here is the [IndexError] of an index out of range. *)
Definition classify (result : CompletedProcess) : outcome dict :=
  if contains (txt "THEOREM PROVED") (stdout result) then
    match getitem (split (txt "PROOF =") (stdout result)) 1 with
    | Raise e => Raise e
    | Ret after =>
        match getitem (split (txt "====") after) 0 with
        | Raise e => Raise e
        | Ret text =>
            let proof := strip text in
            Ret (proved_result proof (stdout result))
        end
    end
  else if contains (txt "SEARCH FAILED") (stdout result) then
    Ret (unprovable_result (stdout result))
  else if contains (txt "Fatal error") (stderr result) then
    Ret (syntax_error_result (stderr result))
  else
    Ret (unexpected_result (stdout result) (stderr result)).

Section Runner.

(** [tempfile.mkstemp(suffix, text=True)]: the path of the file it makes. *)
Variable mkstemp : string -> world -> string.

(** [subprocess.run(argv, capture_output=True, text=True, timeout, cwd)]:
    any behaviour of the external program and of the operating system. *)
Variable subprocess_run :
  list string -> Z -> string -> world -> outcome CompletedProcess * world.

(** Lines 68-71: [mkstemp] makes an empty file, the text is written to
    it. *)
Definition _create_input_file (premises : list str) (goal : str) : M string :=
  fun w =>
    let path := mkstemp ".in" w in
    bind (write_file path [])
         (fun _ => bind (write_file path (input_content premises goal))
                        (fun _ => ret path)) w.

(** The dictionaries of lines 97 and 100. *)
Definition timeout_result (timeout : Z) : dict :=
  list_to_map
    [("result", txt "timeout");
     ("reason", txt ("Proof search exceeded " +:+ pretty timeout
                     +:+ " seconds"))].

Definition error_result (e : exn) : dict :=
  list_to_map [("result", txt "error"); ("reason", message e)].

(** Lines 102-105: the [finally] block. *)
Definition cleanup (input_path : string) : M unit :=
  try_except (unlink input_path)
    [(FileNotFoundError, fun _ => ret tt);
     (PermissionError, fun _ => ret tt);
     (OSError, fun _ => ret tt)].

(** Line 80.  The working directory is the parent of [prover_exe], which
    [__init__] sets to [prover_path / "prover9.exe"] or to
    [prover_path / "prover9"]. *)
Definition launch (self : LogicEngine) (input_path : string) (timeout : Z)
    : M CompletedProcess :=
  subprocess_run [prover_exe self; "-f"%string; input_path]
                 timeout (prover_path self).

Definition _run_prover (self : LogicEngine) (input_path : string)
    (timeout : Z) : M dict :=
  try_finally
    (try_except
       (bind (launch self input_path timeout)
             (fun result => lift (classify result)))
       [(TimeoutExpired, fun _ => ret (timeout_result timeout));
        (Exception, fun e => ret (error_result e))])
    (cleanup input_path).

End Runner.

(** The dictionary that the body of the [try] and its handlers yield. *)
Definition answer (timeout : Z) (o : outcome CompletedProcess) : dict :=
  match o with
  | Ret result =>
      match classify result with
      | Ret d => d
      | Raise e => error_result e
      end
  | Raise e =>
      if issubclass (cls e) TimeoutExpired then timeout_result timeout
      else error_result e
  end.

(** The file system after the [finally] block. *)
Definition after_cleanup (input_path : string) (w : world) : world :=
  {| files := match locked w !! input_path with
              | Some _ => files w
              | None => delete input_path (files w)
              end;
     locked := locked w;
     encode_error := encode_error w |}.

End Server.

(** ** Fixtures and notions of the statements *)

Module Fixtures.
Import PyStr Py Server.

(** The line break, as a string. *)
Definition NL : string := String "010" "".

(** The premises and the goal of the syllogism of [direct_test.py]. *)
Definition syllogism_premises : list str :=
  [txt "all x (man(x) -> mortal(x))"; txt "man(socrates)"].

Definition syllogism_goal : str := txt "mortal(socrates)".

Definition syllogism_text : str :=
  txt ("formulas(assumptions)." +:+ NL +:+
       "all x (man(x) -> mortal(x))." +:+ NL +:+
       "man(socrates)." +:+ NL +:+
       "end_of_list." +:+ NL +:+
       NL +:+
       "formulas(goals)." +:+ NL +:+
       "mortal(socrates)." +:+ NL +:+
       "end_of_list.").

(** The formula lines of a synthesized content of [n] premises: the [n]
    lines after the first header and the line after the second header. *)
Definition formula_lines (n : nat) (lines : list str) : list str :=
  firstn n (skipn 1 lines) ++ firstn 1 (skipn (n + 4) lines).


(** The formulas that survive the way through the input file and back: not
    empty, without a period and without a line break, trimmed, not a comment
    line, not beginning with "end" and not ending with "end_of_list" (in any
    mix of cases). *)
Definition plain (f : str) : bool :=
  FileParser.nonempty f
  && negb (has_chr "." f) && negb (has_chr "010" f)
  && bool_decide (strip f = f)
  && negb (startswith (txt "%") f)
  && negb (FileParser.begins_with_end f)
  && negb (endswith (lower (txt "end_of_list")) (lower f)).

(** A premise must moreover not end with "formulas(goals)". *)
Definition plain_premise (f : str) : bool :=
  plain f && negb (endswith (lower (txt "formulas(goals)")) (lower f)).

(** The splitting of a block as the specification words it: at a period
    followed by whitespace, [r'\.\s+']. *)
Definition spec_dot_re : Re.pattern :=
  [Re.One (Re.Chr "."); Re.One Re.Space; Re.Star true Re.Space].

Definition spec_premises_of_block (g : str) : list str :=
  FileParser.premises_loop (Re.split Re.no_flags spec_dot_re (strip g)).

(** An external program that completes with the given streams and leaves
    the file system alone. *)
Definition completes (out err : str) :
    list string -> Z -> string -> world -> outcome CompletedProcess * world :=
  fun _ _ _ w => (Ret {| stdout := out; stderr := err |}, w).

(** An external program that fails with the given exception. *)
Definition fails (e : exn) :
    list string -> Z -> string -> world -> outcome CompletedProcess * world :=
  fun _ _ _ w => (Raise e, w).

(** A file system that holds the input file of a run. *)
Definition world_with_input : world :=
  {| files := {[ "/tmp/tmpq1w2e3.in"%string := syllogism_text ]};
     locked := ∅;
     encode_error := fun _ => None |}.

(** A file system that holds the input file of a run and refuses its
    removal with an [OSError] of no narrower class. *)
Definition world_with_busy_input : world :=
  {| files := {[ "/tmp/tmpq1w2e3.in"%string := syllogism_text ]};
     locked := {[ "/tmp/tmpq1w2e3.in"%string :=
                    Other (txt "Device or resource busy") ]};
     encode_error := fun _ => None |}.

(** An engine, as [__init__] sets it up. *)
Definition engine : LogicEngine :=
  {| prover_path := "/opt/ladr/bin"; prover_exe := "/opt/ladr/bin/prover9" |}.

(** A stdout of the shape "THEOREM PROVED ... PROOF = <text> ====". *)
Definition proved_fixture : str :=
  txt ("THEOREM PROVED" +:+ NL +:+
       "PROOF = 1 mortal(socrates). [resolve(2,a,3,a)] " +:+ NL +:+
       "==== end of proof ====").

End Fixtures.

(** ** Notions used by the statements and their proofs *)

Module Notions.
Import PyStr.

(** A text of whitespace only. *)
Definition all_space (s : str) : Prop := Forall (fun c => isspace c = true) s.

(** A text that does not begin with whitespace. *)
Definition tight_left (s : str) : Prop :=
  match s with
  | [] => True
  | c :: _ => isspace c = false
  end.

(** A text that does not end with whitespace. *)
Definition tight_right (s : str) : Prop := tight_left (rev s).

(** The state while no group is open. *)
Definition closed (st : Re.mstate) : Prop := Re.opened st = None.

(** The text taken by an open group. *)
Definition push (g : str) (st : Re.mstate) : Re.mstate :=
  fold_left (fun st x => Re.consume x st) g st.

(** The literal texts of the two patterns and of the synthesizer. *)
Definition end_marker : str := txt "end_of_list.".

(** What follows the header in both block patterns. *)
Definition block_tail : Re.pattern :=
  [Re.Star true Re.Space; Re.Open; Re.Star false Re.Any; Re.Close;
   Re.Star true Re.Space] ++ Re.lits "end_of_list.".

(** The text [marker], in any mix of cases, begins [s]. *)
Definition begins_ci (marker s : str) : bool :=
  startswith (lower marker) (lower s).

(** The text [marker], in any mix of cases, occurs in [s]. *)
Definition occurs_ci (marker s : str) : bool :=
  contains (lower marker) (lower s).

Definition dot : str := txt ".".

(** Somewhere in [s] the text [h] begins, in any mix of cases, and the text
    [m] occurs after it, in any mix of cases. *)
Fixpoint followed_ci (h m s : str) : bool :=
  (begins_ci h s && occurs_ci m (skipn (length h) s))
  || match s with
     | [] => false
     | _ :: s' => followed_ci h m s'
     end.

(** [x] occurs in [s]; [x] occurs in [s] and [y] occurs after it. *)
Definition infix_of (x s : str) : Prop := exists a d, s = a ++ x ++ d.

Definition seq2 (x y s : str) : Prop :=
  exists a b d, s = a ++ x ++ b ++ y ++ d.

(** Pieces without a period. *)
Definition dot_free (pieces : list str) : Prop :=
  Forall (fun f => has_chr "." f = false) pieces.

(** A formula with its terminator. *)
Definition with_dot (p : str) : str := p ++ txt ".".


Definition header2 : str := txt "formulas(goals).".


End Notions.


(** ** Notions of the further properties *)

Module MoreNotions.
Import PyStr.

(** A state of the matcher, with the texts of its group in lower case. *)
Definition lower_state (st : Re.mstate) : Re.mstate :=
  {| Re.opened := option_map lower (Re.opened st);
     Re.group1 := option_map lower (Re.group1 st) |}.

(** An answer of the matcher, in lower case. *)
Definition lower_answer (r : option (Re.mstate * str))
    : option (Re.mstate * str) :=
  match r with
  | Some (st, rest) => Some (lower_state st, lower rest)
  | None => None
  end.

(** An end marker begins somewhere in [v]. *)
Definition marker_in (v : str) : Prop :=
  exists m, Notions.begins_ci Notions.end_marker (skipn m v) = true.

(** The shape of a dictionary of the runner: the result "proved" with a
    proof and no reason, or one of the three other results with a reason
    and no proof. *)
Definition well_shaped (d : Server.dict) : Prop :=
  (d !! "result" = Some (txt "proved")
   /\ is_Some (d !! "proof") /\ d !! "reason" = None)
  \/ ((d !! "result" = Some (txt "unprovable")
       \/ d !! "result" = Some (txt "error")
       \/ d !! "result" = Some (txt "timeout"))
      /\ is_Some (d !! "reason") /\ d !! "proof" = None).

End MoreNotions.

(** ** file_parser.py: the functions that read a file

    The files of the model are regular text files that can be read, their
    content being the text that [f.read()] gives, and nothing changes the
    file system between the test of line 40 and the reading of lines 43-44;
    so [path.exists()] and the [open] that follows are one look at the file
    system. *)

Module FileReader.
Import PyStr Py FileParser.

Module Prover9FileParser.

(** Lines 39-46. *)
Definition parse_file (file_path : string) : M (list str * option str) :=
  fun w =>
    match files w !! file_path with
    | None =>
        (Raise {| cls := FileNotFoundError;
                  message := txt ("File not found: " +:+ file_path) |}, w)
    | Some content => (Ret (parse_content content), w)
    end.

(** Lines 105-106: [premises, _ = self.parse_file(file_path)]. *)
Definition parse_mace4_file (file_path : string) : M (list str) :=
  bind (parse_file file_path) (fun '(premises, _) => ret premises).

End Prover9FileParser.

(** Lines 119-120. *)
Definition parse_prover9_file (file_path : string)
    : M (list str * option str) :=
  Prover9FileParser.parse_file file_path.

(** Lines 133-134. *)
Definition parse_mace4_file (file_path : string) : M (list str) :=
  Prover9FileParser.parse_mace4_file file_path.

End FileReader.

(** ** server.py: the arguments of a tool and the tool [prove]

    The arguments of a tool call are a JSON object; its entries are taken
    to have the types that the input schema of the tool declares, and an
    absent key is [None].  [validate_formulas] belongs to a module that is
    not part of these sources: it is any function to a dictionary with an
    entry "valid".  The reply of the tool is the object that the handler
    hands to [json.dumps]. *)

Module Tool.
Import PyStr Py Server FileReader.

Record arguments := {
  input_file : option string;
  premises : option (list str);
  conclusion : option str
}.

(** What can be raised here: an exception that the runner or the writing
    of the input file raises, with its class among those of [Py], or the
    [ValueError] that lines 124, 147 and 384 make. *)
Inductive raised : Type :=
| Of (e : exn)
| ValueError (message : str).

(** [isinstance(e, Exception)] *)
Definition is_Exception (e : raised) : bool :=
  match e with
  | Of e => issubclass (cls e) Exception
  | ValueError _ => true
  end.

(** [str(e)] *)
Definition str_of (e : raised) : str :=
  match e with
  | Of e => message e
  | ValueError message => message
  end.

Definition class_name (c : exn_class) : string :=
  match c with
  | BaseException => "BaseException"
  | Exception => "Exception"
  | KeyboardInterrupt => "KeyboardInterrupt"
  | OSError => "OSError"
  | FileNotFoundError => "FileNotFoundError"
  | PermissionError => "PermissionError"
  | IsADirectoryError => "IsADirectoryError"
  | SubprocessError => "SubprocessError"
  | TimeoutExpired => "TimeoutExpired"
  | LookupError => "LookupError"
  | IndexError => "IndexError"
  | Py.ValueError => "ValueError"
  | UnicodeError => "UnicodeError"
  | UnicodeEncodeError => "UnicodeEncodeError"
  end.

(** [type(e).__name__] *)
Definition type_name (e : raised) : string :=
  match e with
  | Of e => class_name (cls e)
  | ValueError _ => "ValueError"
  end.

Inductive completion (A : Type) : Type :=
| Done (a : A)
| Failed (e : raised).
Arguments Done {A} a.
Arguments Failed {A} e.

Definition T (A : Type) : Type := world -> completion A * world.

Definition done {A} (a : A) : T A := fun w => (Done a, w).

Definition fail {A} (e : raised) : T A := fun w => (Failed e, w).

Definition and_then {A B} (m : T A) (f : A -> T B) : T B :=
  fun w =>
    match m w with
    | (Done a, w') => f a w'
    | (Failed e, w') => (Failed e, w')
    end.

(** A computation of the runner, run here. *)
Definition run {A} (m : M A) : T A :=
  fun w =>
    match m w with
    | (Ret a, w') => (Done a, w')
    | (Raise e, w') => (Failed (Of e), w')
    end.

(** [try: body  except Exception as e: h e] *)
Definition try_except_Exception {A} (body : T A) (h : raised -> T A) : T A :=
  fun w =>
    match body w with
    | (Done a, w') => (Done a, w')
    | (Failed e, w') => if is_Exception e then h e w' else (Failed e, w')
    end.

(** The message of lines 124 and 147. *)
Definition failed_to_parse (file_path : string) (e : raised) : str :=
  txt ("Failed to parse input file " +:+ file_path +:+ ": ") ++ str_of e.

(** Lines 117-129. *)
Definition _extract_formulas_from_input (arguments : arguments)
    : T (list str * option str) :=
  match input_file arguments with
  | Some file_path =>
      try_except_Exception
        (run (parse_prover9_file file_path))
        (fun e => fail (ValueError (failed_to_parse file_path e)))
  | None =>
      let premises := default [] (premises arguments) in
      let conclusion := conclusion arguments in
      done (premises, conclusion)
  end.

(** Lines 141-150. *)
Definition _extract_premises_from_input (arguments : arguments)
    : T (list str) :=
  match input_file arguments with
  | Some file_path =>
      try_except_Exception
        (run (parse_mace4_file file_path))
        (fun e => fail (ValueError (failed_to_parse file_path e)))
  | None => done (default [] (premises arguments))
  end.

(** The dictionaries of lines 289 and 388. *)
Definition no_conclusion_reply : dict :=
  list_to_map
    [("result", txt "error");
     ("reason", txt ("No conclusion found in input. For file input, " +:+
                     "ensure formulas(goals) section exists."))].

Definition tool_error_reply (e : raised) : dict :=
  list_to_map [("error", str_of e); ("type", txt (type_name e))].

Section Prove.

Variable Validation : Type.

(** [validate_formulas(all_formulas)] and [validation["valid"]]. *)
Variable validate_formulas : list str -> Validation.
Variable valid : Validation -> bool.

Variable mkstemp : string -> world -> string.

Variable subprocess_run :
  list string -> Z -> string -> world -> outcome CompletedProcess * world.

Variable engine : LogicEngine.

(** What is handed to [json.dumps]: a dictionary of texts, or the
    dictionary [{"result": "syntax_error", "validation": validation}] of
    line 296. *)
Inductive payload : Type :=
| Texts (d : dict)
| Syntax_error (validation : Validation).

(** Lines 286-301: the branch of the tool "prove". *)
Definition prove_branch (arguments : arguments) : T payload :=
  and_then (_extract_formulas_from_input arguments)
    (fun '(premises, conclusion) =>
       match conclusion with
       | None => done (Texts no_conclusion_reply)
       | Some conclusion =>
           let all_formulas := premises ++ [conclusion] in
           let validation := validate_formulas all_formulas in
           if negb (valid validation) then done (Syntax_error validation)
           else
             and_then (run (_create_input_file mkstemp premises conclusion))
               (fun input_file =>
                  and_then
                    (run (_run_prover subprocess_run engine input_file 60))
                    (fun results => done (Texts results)))
       end).

(** [handle_call_tool("prove", arguments)]: the branch inside the [try] of
    line 283, with the handler of lines 386-388. *)
Definition handle_call_tool_prove (arguments : arguments) : T payload :=
  try_except_Exception (prove_branch arguments)
    (fun e => done (Texts (tool_error_reply e))).

End Prove.

Arguments Texts {Validation} d.
Arguments Syntax_error {Validation} validation.

End Tool.

(** ** Fixtures of the further properties *)

Module MoreFixtures.
Import PyStr Py Server Fixtures Tool.

Definition empty_world : world :=
  {| files := ∅; locked := ∅; encode_error := fun _ => None |}.

(** A [mkstemp] that gives one path. *)
Definition temp_path : string -> world -> string :=
  fun _ _ => "/tmp/tmpq1w2e3.in"%string.

(** A content with an assumptions block and no goals block. *)
Definition premises_only_text : str :=
  txt ("formulas(assumptions)." +:+ NL +:+
       "man(socrates)." +:+ NL +:+
       "end_of_list.").

(** A second problem, to follow the syllogism in one content. *)
Definition second_problem_text : str :=
  txt ("formulas(assumptions)." +:+ NL +:+
       "man(plato)." +:+ NL +:+
       "end_of_list." +:+ NL +:+
       "formulas(goals)." +:+ NL +:+
       "mortal(plato)." +:+ NL +:+
       "end_of_list.").

(** A file system that holds a problem file and a file of premises. *)
Definition world_with_problems : world :=
  {| files := {[ "/home/u/syllogism.in"%string := syllogism_text;
                 "/home/u/premises.in"%string := premises_only_text ]};
     locked := ∅;
     encode_error := fun _ => None |}.

(** The arguments of a call with formulas, and of a call with a file. *)
Definition inline_call : arguments :=
  {| input_file := None;
     premises := Some syllogism_premises;
     conclusion := Some syllogism_goal |}.

Definition file_call (file_path : string) : arguments :=
  {| input_file := Some file_path; premises := None; conclusion := None |}.

(** A premise with a character that is not ASCII, a call with it, and a
    locale whose encoding takes ASCII characters only. *)
Definition accented_premise : str :=
  txt "caf" ++ ["233"%char] ++ txt "(x)".

Definition accented_call : arguments :=
  {| input_file := None;
     premises := Some [accented_premise];
     conclusion := Some syllogism_goal |}.

Definition ascii_codec_error : str :=
  txt ("'ascii' codec can't encode character '\xe9' in position 26: " +:+
       "ordinal not in range(128)").

Definition ascii_locale : world :=
  {| files := ∅; locked := ∅;
     encode_error := fun _ => Some ascii_codec_error |}.

(** A validator that accepts everything and one that accepts nothing; the
    validation is its own entry "valid". *)
Definition accept : list str -> bool := fun _ => true.

Definition reject : list str -> bool := fun _ => false.

Definition its_valid : bool -> bool := fun v => v.

End MoreFixtures.
(** * Properties *)

(** ** Facts about Python strings *)

Section StrFacts.
Import Notions PyStr.

Lemma chr_eqb_eq (a b : ascii) : chr_eqb a b = true <-> a = b.
Proof. apply Ascii.eqb_eq. Qed.

Lemma chr_eqb_refl (a : ascii) : chr_eqb a a = true.
Proof. apply Ascii.eqb_refl. Qed.

Lemma chr_eqb_sym (a b : ascii) : chr_eqb a b = chr_eqb b a.
Proof. apply Ascii.eqb_sym. Qed.

Lemma chr_eqb_neq (a b : ascii) : chr_eqb a b = false <-> a <> b.
Proof. apply Ascii.eqb_neq. Qed.

Lemma startswith_spec (p s : str) :
  startswith p s = true <-> exists r, s = p ++ r.
Proof.
  revert s. induction p as [|a p IH]; intros s; simpl.
  - split; [intros _; exists s; reflexivity | reflexivity].
  - destruct s as [|b s].
    + split; [discriminate | intros [r Hr]; discriminate].
    + rewrite andb_true_iff, chr_eqb_eq, IH. split.
      * intros [-> [r ->]]. exists r. reflexivity.
      * intros [r Hr]. injection Hr as -> ->. split; [reflexivity | eauto].
Qed.

Lemma startswith_app (p r : str) : startswith p (p ++ r) = true.
Proof. apply startswith_spec. eauto. Qed.

Lemma startswith_refl (p : str) : startswith p p = true.
Proof. apply startswith_spec. exists []. symmetry. apply app_nil_r. Qed.

Lemma startswith_length (p s : str) :
  startswith p s = true -> length p <= length s.
Proof.
  intros H. apply startswith_spec in H as [r ->].
  rewrite length_app. lia.
Qed.

Lemma startswith_app_l (p s r : str) :
  startswith p s = true -> startswith p (s ++ r) = true.
Proof.
  intros H. apply startswith_spec in H as [q ->].
  rewrite <- app_assoc. apply startswith_app.
Qed.

(** A prefix test that fits in the first part of a text looks at that part
    only. *)
Lemma startswith_app_long (p s r : str) :
  length p <= length s -> startswith p (s ++ r) = startswith p s.
Proof.
  revert s. induction p as [|a p IH]; intros s Hl; simpl; [reflexivity|].
  destruct s as [|b s]; simpl in *; [lia|].
  rewrite IH by lia. reflexivity.
Qed.

Lemma endswith_dot_rev (f : str) :
  endswith (txt ".") f = true <-> exists r, rev f = "."%char :: r.
Proof.
  unfold endswith. simpl. destruct (rev f) as [|b r]; simpl.
  - split; [discriminate | intros [r Hr]; discriminate].
  - rewrite andb_true_r, chr_eqb_eq. split.
    + intros <-. eauto.
    + intros [r' Hr]. injection Hr as -> _. reflexivity.
Qed.

Lemma endswith_dot_app (f : str) : endswith (txt ".") (f ++ txt ".") = true.
Proof.
  apply endswith_dot_rev. rewrite rev_app_distr. simpl. eauto.
Qed.

End StrFacts.

(** ** The synthesizer *)

Section Synthesizer.
Import Notions PyStr Py Server.

Lemma terminated_endswith (f : str) :
  endswith (txt ".") (terminated f) = true.
Proof.
  unfold terminated. destruct (endswith (txt ".") f) eqn:E; [exact E|].
  apply endswith_dot_app.
Qed.

Lemma terminated_trailing_dots (f : str) :
  trailing_dots (terminated f) = Nat.max 1 (trailing_dots f).
Proof.
  unfold terminated, trailing_dots.
  destruct (endswith (txt ".") f) eqn:E.
  - apply endswith_dot_rev in E as [r ->]. simpl. reflexivity.
  - rewrite rev_app_distr. simpl.
    destruct (rev f) as [|b r] eqn:Er; simpl; [reflexivity|].
    destruct (chr_eqb b ".") eqn:Eb; [|reflexivity].
    apply chr_eqb_eq in Eb. subst b.
    assert (endswith (txt ".") f = true) as E'
      by (apply endswith_dot_rev; eauto).
    congruence.
Qed.

Lemma content_lines_premise (premises : list str) (goal : str) (i : nat)
    (f : str) :
  nth_error premises i = Some f ->
  nth_error (content_lines premises goal) (S i) = Some (terminated f).
Proof.
  intros H. unfold content_lines. simpl.
  rewrite nth_error_app1.
  - rewrite nth_error_map, H. reflexivity.
  - rewrite length_map. apply nth_error_Some. congruence.
Qed.

Lemma content_lines_goal (premises : list str) (goal : str) :
  nth_error (content_lines premises goal) (length premises + 4)
  = Some (terminated goal).
Proof.
  unfold content_lines.
  replace (length premises + 4) with (S (length premises + 3)) by lia.
  simpl. rewrite nth_error_app2; rewrite length_map; [|lia].
  replace (length premises + 3 - length premises) with 3 by lia.
  reflexivity.
Qed.

End Synthesizer.

Section SynthesizerClaims.
Import Notions PyStr Py Server Fixtures.

(** C1.  For the premises ["all x (man(x) -> mortal(x))"; "man(socrates)"]
    and the goal "mortal(socrates)", the text that [_create_input_file]
    builds and writes to the file whose path it returns is exactly
    "formulas(assumptions).\nall x (man(x) -> mortal(x)).\nman(socrates).\n
    end_of_list.\n\nformulas(goals).\nmortal(socrates).\nend_of_list.":
    one formula per line, each with a period appended, and a blank line
    between the two blocks. *)
Theorem create_input_file_syllogism
    (mkstemp : string -> world -> string) (w : world) :
  input_content syllogism_premises syllogism_goal = syllogism_text /\
  exists path w',
    _create_input_file mkstemp syllogism_premises syllogism_goal w
    = (Ret path, w') /\
    files w' !! path = Some syllogism_text.
Proof.
  split; [reflexivity|].
  eexists _, _. split; [reflexivity|].
  cbn [files]. rewrite lookup_insert_eq. reflexivity.
Qed.

Lemma formula_lines_content (premises : list str) (goal : str) :
  formula_lines (length premises) (content_lines premises goal)
  = map terminated (premises ++ [goal]).
Proof.
  unfold formula_lines, content_lines.
  replace (length premises + 4) with (S (length premises + 3)) by lia.
  cbn [skipn app].
  set (m := map terminated premises).
  assert (length m = length premises) as Hm by apply length_map.
  rewrite <- Hm. change (drop 0 ?l) with l. rewrite take_app_length.
  rewrite skipn_app, skipn_all2 by lia.
  replace (length m + 3 - length m) with 3 by lia.
  subst m. rewrite map_app. reflexivity.
Qed.

(** C8 (as amended).  In the synthesized content, the line written for each
    premise and for the goal is the formula itself when it ends with a
    period and the formula followed by one period otherwise; so every
    written formula line ends with a period, and the number of periods it
    ends with is one if the formula ended with none and is that of the
    formula otherwise (surplus periods are written as they are). *)
Theorem written_formula_terminator (premises : list str) (goal : str) :
  Forall2
    (fun f line =>
       line = (if endswith (txt ".") f then f else f ++ txt ".") /\
       endswith (txt ".") line = true /\
       trailing_dots line = Nat.max 1 (trailing_dots f))
    (premises ++ [goal])
    (formula_lines (length premises) (content_lines premises goal)).
Proof.
  rewrite formula_lines_content.
  induction (premises ++ [goal]) as [|f l IH]; simpl; constructor; auto.
  split; [reflexivity|]. split.
  - apply terminated_endswith.
  - apply terminated_trailing_dots.
Qed.

(** C8 as stated fails: the premise "p(a).." is written as the line
    "p(a)..", which ends with two periods. *)
Lemma written_formula_two_terminators :
  formula_lines 1 (content_lines [txt "p(a).."] (txt "q(a)"))
  = [txt "p(a).."; txt "q(a)."] /\
  trailing_dots (txt "p(a)..") = 2.
Proof. split; reflexivity. Qed.

End SynthesizerClaims.

(** ** [str.split] and [str.partition] *)

Section SplitFacts.
Import Notions PyStr.

Lemma split_go_skip (sep : str) (k : nat) (acc s : str) :
  k <= length s -> split_go sep k acc s = split_go sep 0 acc (skipn k s).
Proof.
  revert k. induction s as [|c s IH]; intros [|k] Hk; simpl in *;
    try reflexivity; try lia.
  apply IH. lia.
Qed.

Lemma startswith_skipn (sep s : str) :
  startswith sep s = true -> s = sep ++ skipn (length sep) s.
Proof.
  intros H. apply startswith_spec in H as [r ->].
  rewrite drop_app_length. reflexivity.
Qed.

Lemma split_go_partition (sep : str) (acc s : str) :
  sep <> [] ->
  split_go sep 0 acc s =
  match partition sep s with
  | None => [rev acc ++ s]
  | Some (a, b) => (rev acc ++ a) :: split_go sep 0 [] b
  end.
Proof.
  intros Hsep. revert acc. induction s as [|c s IH]; intros acc.
  - destruct sep as [|x sep]; [congruence|]. simpl.
    rewrite app_nil_r. reflexivity.
  - cbn [split_go partition].
    destruct (startswith sep (c :: s)) eqn:E.
    + rewrite app_nil_r.
      pose proof (startswith_length _ _ E) as Hl.
      destruct sep as [|x sep]; [congruence|]. simpl in Hl.
      rewrite split_go_skip by (simpl; lia).
      simpl. rewrite Nat.sub_0_r. reflexivity.
    + rewrite IH. destruct (partition sep s) as [[a b]|]; simpl;
        rewrite <- app_assoc; reflexivity.
Qed.

Lemma split_partition (sep s : str) :
  sep <> [] ->
  split sep s =
  match partition sep s with
  | None => [s]
  | Some (a, b) => a :: split sep b
  end.
Proof.
  intros Hsep. unfold split. rewrite split_go_partition by assumption.
  destruct (partition sep s) as [[a b]|]; reflexivity.
Qed.

Lemma split_head (sep s : str) :
  sep <> [] -> nth_error (split sep s) 0 = Some (before sep s).
Proof.
  intros Hsep. rewrite split_partition by assumption. unfold before.
  destruct (partition sep s) as [[a b]|]; reflexivity.
Qed.

Lemma split_second (sep s : str) :
  sep <> [] ->
  nth_error (split sep s) 1 =
  match partition sep s with
  | None => None
  | Some (_, b) => Some (before sep b)
  end.
Proof.
  intros Hsep. rewrite split_partition by assumption.
  destruct (partition sep s) as [[a b]|]; [|reflexivity].
  simpl. apply split_head. assumption.
Qed.

(** [partition] cuts at the first occurrence of the separator. *)
Lemma partition_Some (sep s a b : str) :
  partition sep s = Some (a, b) ->
  s = a ++ sep ++ b /\
  forall n, n < length a -> startswith sep (skipn n s) = false.
Proof.
  revert a. induction s as [|c s IH]; intros a; cbn [partition].
  - destruct (startswith sep []) eqn:E; [|discriminate].
    intros [= <- <-]. split; [|simpl; lia].
    apply (startswith_skipn _ _ E).
  - destruct (startswith sep (c :: s)) eqn:E.
    + intros [= <- <-]. split; [|simpl; lia].
      apply (startswith_skipn _ _ E).
    + destruct (partition sep s) as [[a' b']|]; [|discriminate].
      intros [= <- <-]. destruct (IH a' eq_refl) as [-> Hn].
      split; [reflexivity|]. intros [|n] Hlt; [exact E|].
      simpl. apply Hn. simpl in Hlt. lia.
Qed.

Lemma partition_None (sep s : str) :
  partition sep s = None <-> contains sep s = false.
Proof.
  induction s as [|c s IH]; cbn [partition contains].
  - destruct (startswith sep []); simpl; split; congruence.
  - destruct (startswith sep (c :: s)); simpl; [split; congruence|].
    rewrite <- IH. destruct (partition sep s) as [[a b]|]; split; congruence.
Qed.

(** The first occurrence of [sep] in [a ++ sep ++ b] is the one shown when
    none starts inside [a]. *)
Lemma partition_app (sep a b : str) :
  (forall n, n < length a -> startswith sep (skipn n (a ++ sep ++ b)) = false)
  -> partition sep (a ++ sep ++ b) = Some (a, b).
Proof.
  induction a as [|c a IH]; intros H.
  - simpl. destruct (sep ++ b) as [|x r] eqn:E.
    + destruct sep; [|discriminate]. simpl in E. subst b. reflexivity.
    + cbn [partition]. rewrite <- E, startswith_app, drop_app_length.
      reflexivity.
  - pose proof (H 0 ltac:(simpl; lia)) as H0.
    change (drop 0 ?l) with l in H0.
    cbn [app partition] in H0 |- *. rewrite H0.
    rewrite IH; [reflexivity|].
    intros n Hn. apply (H (S n)). simpl. lia.
Qed.

Lemma contains_skipn (sep s : str) (n : nat) :
  contains sep s = false -> startswith sep (skipn n s) = false.
Proof.
  revert n. induction s as [|c s IH]; intros n; cbn [contains].
  - rewrite orb_false_r. destruct n; simpl; auto.
  - intros H. apply orb_false_iff in H as [H1 H2].
    destruct n; simpl; auto.
Qed.

(** The first occurrence of [sep] in [a ++ sep ++ b] is the one shown when
    [sep] does not occur in [a] followed by all of [sep] but its last
    character. *)
Lemma partition_first (sep a b : str) :
  contains sep (a ++ removelast sep) = false ->
  partition sep (a ++ sep ++ b) = Some (a, b).
Proof.
  intros H. apply partition_app. intros n Hn.
  destruct sep as [|x sep'].
  { simpl in H. destruct (a ++ []); discriminate. }
  pose proof (contains_skipn _ _ n H) as Hc.
  assert (x :: sep' = removelast (x :: sep') ++ [List.last (x :: sep') x]) as Hs
    by (apply app_removelast_last; discriminate).
  set (r := removelast (x :: sep')) in *.
  set (l := List.last (x :: sep') x) in *.
  assert (length (x :: sep') = length r + 1) as Hl
    by (rewrite Hs at 1; rewrite length_app; reflexivity).
  rewrite skipn_app in Hc |- *.
  replace (n - length a) with 0 in * by lia.
  change (drop 0 ?l) with l in *.
  replace ((x :: sep') ++ b) with (r ++ [l] ++ b)
    by (rewrite app_assoc, <- Hs; reflexivity).
  rewrite app_assoc, startswith_app_long; [exact Hc|].
  rewrite length_app, length_drop. lia.
Qed.

Lemma before_app (sep a b : str) :
  contains sep (a ++ removelast sep) = false ->
  before sep (a ++ sep ++ b) = a.
Proof.
  intros H. unfold before. rewrite partition_first by assumption.
  reflexivity.
Qed.

Lemma before_absent (sep s : str) :
  contains sep s = false -> before sep s = s.
Proof.
  intros H. unfold before. apply partition_None in H. rewrite H. reflexivity.
Qed.

Lemma contains_prefix (p a b : str) :
  contains p a = true -> contains p (a ++ b) = true.
Proof.
  revert b. induction a as [|x a IH]; intros b; cbn [contains app].
  - rewrite orb_false_r. intros H.
    pose proof (startswith_app_l _ _ b H) as H'. cbn [app] in H'.
    destruct b; cbn [contains]; rewrite H'; reflexivity.
  - intros H. apply orb_true_iff in H as [H | H].
    + change (x :: a ++ b) with ((x :: a) ++ b).
      rewrite (startswith_app_l _ _ _ H). reflexivity.
    + rewrite (IH b H). apply orb_true_r.
Qed.

End SplitFacts.

(** ** The classification of a completed run *)

Section Classification.
Import Notions PyStr Py Server Fixtures.

(** The branch of a stdout that holds "THEOREM PROVED": an [IndexError] when
    "PROOF =" is missing, the text after the first "PROOF =" cut at the next
    "PROOF =" and at the first "====" otherwise. *)
Lemma classify_theorem_proved (out err : str) :
  contains (txt "THEOREM PROVED") out = true ->
  classify {| stdout := out; stderr := err |} =
  match partition (txt "PROOF =") out with
  | None =>
      Raise {| cls := IndexError; message := txt "list index out of range" |}
  | Some (_, rest) =>
      Ret (proved_result
             (strip (before (txt "====") (before (txt "PROOF =") rest))) out)
  end.
Proof.
  intros H. unfold classify, getitem. cbn [stdout stderr]. rewrite H.
  rewrite split_second by discriminate.
  destruct (partition (txt "PROOF =") out) as [[pre rest]|]; [|reflexivity].
  rewrite split_head by discriminate. reflexivity.
Qed.

(** The branches of a stdout that does not hold "THEOREM PROVED", in the
    order of the source. *)
Lemma classify_not_proved (out err : str) :
  contains (txt "THEOREM PROVED") out = false ->
  classify {| stdout := out; stderr := err |} =
  Ret (if contains (txt "SEARCH FAILED") out then unprovable_result out
       else if contains (txt "Fatal error") err then syntax_error_result err
       else unexpected_result out err).
Proof.
  intros H. unfold classify. cbn [stdout stderr]. rewrite H.
  destruct (contains (txt "SEARCH FAILED") out); [reflexivity|].
  destruct (contains (txt "Fatal error") err); reflexivity.
Qed.

(** A timeout is answered with the result "timeout", whatever else. *)
Lemma run_prover_timeout
    (run : list string -> Z -> string -> world
           -> outcome CompletedProcess * world)
    (self : LogicEngine) (input_path : string) (timeout : Z) (w w1 : world)
    (e : exn) :
  launch run self input_path timeout w = (Raise e, w1) ->
  cls e = TimeoutExpired ->
  fst (_run_prover run self input_path timeout w)
  = Ret (timeout_result timeout).
Proof.
  intros Hrun Hcls.
  unfold _run_prover, try_finally, try_except, bind. rewrite Hrun.
  cbn [handle]. rewrite Hcls. cbn [issubclass issubclass_fuel class_eqb orb].
  unfold ret, cleanup, try_except, unlink.
  destruct (locked w1 !! input_path) as [[| |text]|];
    [| | |destruct (files w1 !! input_path)]; reflexivity.
Qed.

(** C2, at the input on which the code leaves the stated order.  A run that
    completes with stdout "THEOREM PROVED" (and any stderr) is not timed
    out and its stdout holds "THEOREM PROVED", yet the runner answers with
    the result "error" and the reason "list index out of range": the index
    [1] of line 87 is out of range and the handler of line 98 takes the
    [IndexError]. *)
Theorem run_prover_proved_without_marker
    (self : LogicEngine) (input_path : string) (timeout : Z) (w : world)
    (err : str) :
  contains (txt "THEOREM PROVED") (txt "THEOREM PROVED") = true /\
  fst (_run_prover (completes (txt "THEOREM PROVED") err)
         self input_path timeout w)
  = Ret (list_to_map [("result", txt "error");
                      ("reason", txt "list index out of range")]).
Proof.
  split; [reflexivity|].
  unfold _run_prover, launch, try_finally, try_except, bind, completes, lift.
  rewrite classify_theorem_proved by reflexivity.
  cbn [partition startswith txt list_ascii_of_string handle].
  simpl. unfold cleanup, try_except, unlink.
  destruct (locked w !! input_path) as [[| |text]|];
    [| | |destruct (files w !! input_path)]; reflexivity.
Qed.




(** "PROOF =" begins a text that goes on with "====" only if it begins the
    text cut after the first "=". *)
Lemma marker_straddle (t post : str) :
  t <> [] ->
  startswith (txt "PROOF =") (t ++ txt "====" ++ post)
  = startswith (txt "PROOF =") (t ++ txt "=").
Proof.
  intros Hne.
  destruct t as [|c1 [|c2 [|c3 [|c4 [|c5 [|c6 [|c7 t]]]]]]]; [congruence|..];
    cbn [app startswith txt list_ascii_of_string];
    repeat match goal with
           | |- context [chr_eqb ?a ?b] =>
               is_ground a; is_ground b;
               let v := eval vm_compute in (chr_eqb a b) in
               change (chr_eqb a b) with v
           end;
    rewrite ?andb_false_r; reflexivity.
Qed.

(** The proof text of a fixture "... PROOF = <text> ==== ...". *)
Lemma proof_text_of_fixture (text post : str) :
  contains (txt "PROOF =") (text ++ txt "=") = false ->
  contains (txt "====") (text ++ txt "===") = false ->
  before (txt "====") (before (txt "PROOF =") (text ++ txt "====" ++ post))
  = text.
Proof.
  intros Hm Hr.
  assert (forall n, n < length text ->
            startswith (txt "PROOF =")
              (skipn n (text ++ txt "====" ++ post)) = false) as Hno.
  { intros n Hn. rewrite skipn_app.
    replace (n - length text) with 0 by lia. change (drop 0 ?l) with l.
    rewrite marker_straddle.
    - pose proof (contains_skipn _ _ n Hm) as Hc.
      rewrite skipn_app in Hc. replace (n - length text) with 0 in Hc by lia.
      exact Hc.
    - intros E. apply (f_equal (@length _)) in E.
      rewrite length_drop in E. simpl in E. lia. }
  unfold before at 2.
  destruct (partition (txt "PROOF =") (text ++ txt "====" ++ post))
    as [[a b]|] eqn:Ep.
  - apply partition_Some in Ep as [E _].
    apply app_eq_app in E as [l [[-> E] | [-> E]]].
    + destruct l as [|x l]; [discriminate|].
      exfalso. pose proof (Hno (length a)) as Hn.
      rewrite <- app_assoc, drop_app_length in Hn.
      rewrite <- E in Hn. rewrite startswith_app in Hn.
      assert (length a < length (a ++ x :: l)) as Hlt
        by (rewrite length_app; simpl; lia).
      specialize (Hn Hlt). discriminate.
    + destruct l as [|x1 [|x2 [|x3 [|x4 l]]]]; try discriminate.
      injection E as <- <- <- <- E.
      apply (before_app (txt "====") text l). exact Hr.
  - apply (before_app (txt "====") text post). exact Hr.
Qed.

(** A stdout "<pre>PROOF =<text>====<post>" with "THEOREM PROVED" in [pre],
    no "PROOF =" before the one shown and neither marker reaching into
    [text], is classified Proved with the proof [text], trimmed. *)
Lemma classify_fixture (pre text post err : str) :
  contains (txt "THEOREM PROVED") pre = true ->
  contains (txt "PROOF =") (pre ++ txt "PROOF ") = false ->
  contains (txt "PROOF =") (text ++ txt "=") = false ->
  contains (txt "====") (text ++ txt "===") = false ->
  classify {| stdout := pre ++ txt "PROOF =" ++ text ++ txt "====" ++ post;
              stderr := err |}
  = Ret (proved_result (strip text)
           (pre ++ txt "PROOF =" ++ text ++ txt "====" ++ post)).
Proof.
  intros Htp Hfirst Hm Hr.
  rewrite classify_theorem_proved by (apply contains_prefix; exact Htp).
  rewrite (partition_first (txt "PROOF =") pre) by exact Hfirst.
  rewrite proof_text_of_fixture by assumption. reflexivity.
Qed.

End Classification.

(** ** The exit paths of the runner *)

Section ExitPaths.
Import Notions PyStr Py Server Fixtures.

Variable subprocess_run :
  list string -> Z -> string -> world -> outcome CompletedProcess * world.

(** The [finally] block never raises: it removes the file when the
    operating system lets it, and leaves the file system as it is
    otherwise. *)
Lemma cleanup_spec (input_path : string) (w : world) :
  cleanup input_path w = (Ret tt, after_cleanup input_path w).
Proof.
  unfold cleanup, try_except, unlink, after_cleanup.
  destruct w as [fs lk enc]. cbn [files locked encode_error].
  destruct (lk !! input_path) as [[| |text]|]; try reflexivity.
  destruct (fs !! input_path) eqn:E; [reflexivity|].
  cbn. rewrite (delete_id _ _ E). reflexivity.
Qed.

(** The classification raises nothing but the [IndexError] of line 87. *)
Lemma classify_raises (result : CompletedProcess) (e : exn) :
  classify result = Raise e -> cls e = IndexError.
Proof.
  unfold classify, getitem.
  repeat match goal with
         | |- context [if ?b then _ else _] => destruct b
         | |- context [nth_error ?l ?n] => destruct (nth_error l n)
         end;
    intros [=]; subst; reflexivity.
Qed.

(** A refused removal raises the error of the refusal, whatever its class
    under [OSError], and the [finally] block swallows it. *)
Lemma cleanup_refused (input_path : string) (w : world) (r : refusal) :
  locked w !! input_path = Some r ->
  unlink input_path w = (Raise (refusal_exn r), w) /\
  issubclass (cls (refusal_exn r)) OSError = true /\
  cleanup input_path w = (Ret tt, w).
Proof.
  intros H. unfold cleanup, try_except, unlink. rewrite H.
  destruct r as [| |text]; repeat split; reflexivity.
Qed.

(** C9.  Whatever the external program and the operating system do, short
    of an exception outside [Exception]: the run returns a dictionary and
    raises nothing; the file system it leaves is the one the program left
    after the removal of the input file has been tried, so that the input
    file is gone unless its removal was refused; a removal that the
    operating system refuses raises the error of the refusal -- a
    [PermissionError], an [IsADirectoryError] or any other [OSError] -- and
    this error, like that of a file that is no longer there, is swallowed
    and leaves the file system as the program left it; a launch or I/O
    failure is answered with the result "error" and the text of the
    exception as reason, a timeout with the result "timeout". *)
Theorem run_prover_exit_paths
    (self : LogicEngine) (input_path : string) (timeout : Z) (w : world) :
  returns_or_raises_Exception
    (fst (launch subprocess_run self input_path timeout w)) = true ->
  exists d w',
    _run_prover subprocess_run self input_path timeout w = (Ret d, w') /\
    d = answer timeout (fst (launch subprocess_run self input_path timeout w))
    /\
    w' = after_cleanup input_path
           (snd (launch subprocess_run self input_path timeout w)) /\
    (locked (snd (launch subprocess_run self input_path timeout w))
       !! input_path = None ->
     files w' !! input_path = None) /\
    (forall r,
       locked (snd (launch subprocess_run self input_path timeout w))
         !! input_path = Some r ->
       unlink input_path
         (snd (launch subprocess_run self input_path timeout w))
       = (Raise (refusal_exn r),
          snd (launch subprocess_run self input_path timeout w)) /\
       w' = snd (launch subprocess_run self input_path timeout w)) /\
    (files (snd (launch subprocess_run self input_path timeout w))
       !! input_path = None ->
     w' = snd (launch subprocess_run self input_path timeout w)).
Proof.
  intros H. unfold _run_prover, try_finally, try_except, bind, lift.
  destruct (launch subprocess_run self input_path timeout w) as [o w1].
  cbn [fst snd] in *.
  assert (forall d : dict,
            d = answer timeout o ->
            exists d' w',
              (@Ret dict d, after_cleanup input_path w1) = (Ret d', w') /\
              d' = answer timeout o /\
              w' = after_cleanup input_path w1 /\
              (locked w1 !! input_path = None ->
               files w' !! input_path = None) /\
              (forall r,
                 locked w1 !! input_path = Some r ->
                 unlink input_path w1 = (Raise (refusal_exn r), w1) /\
                 w' = w1) /\
              (files w1 !! input_path = None -> w' = w1))
    as Hfin.
  { intros d ->. eexists _, _.
    split; [reflexivity|]. split; [reflexivity|]. split; [reflexivity|].
    split; [|split].
    - intros Hl. unfold after_cleanup. cbn [files]. rewrite Hl.
      apply lookup_delete_eq.
    - intros r Hr. split; [apply (cleanup_refused _ _ _ Hr)|].
      unfold after_cleanup. rewrite Hr. destruct w1; reflexivity.
    - intros Hf. unfold after_cleanup.
      destruct (locked w1 !! input_path); [destruct w1; reflexivity|].
      rewrite (delete_id _ _ Hf). destruct w1; reflexivity. }
  destruct o as [result|e]; cbn [answer returns_or_raises_Exception] in *.
  - destruct (classify result) as [d|e] eqn:Ec.
    + rewrite cleanup_spec. apply (Hfin d). reflexivity.
    + apply classify_raises in Ec as Hcls. cbn [handle]. rewrite Hcls.
      cbn. rewrite cleanup_spec. apply Hfin. reflexivity.
  - cbn [handle]. destruct (issubclass (cls e) TimeoutExpired).
    + cbn. rewrite cleanup_spec. apply Hfin. reflexivity.
    + rewrite H. cbn. rewrite cleanup_spec. apply Hfin. reflexivity.
Qed.

End ExitPaths.

Section ExitPathsWitness.
Import Notions PyStr Py Server Fixtures.

Lemma run_prover_exit_paths_witness :
  returns_or_raises_Exception
    (fst (launch (fails {| cls := PermissionError;
                           message := txt "Permission denied" |})
            engine "/tmp/tmpq1w2e3.in" 60 world_with_busy_input)) = true /\
  unlink "/tmp/tmpq1w2e3.in" world_with_busy_input
  = (Raise {| cls := OSError; message := txt "Device or resource busy" |},
     world_with_busy_input) /\
  exists d,
    _run_prover (fails {| cls := PermissionError;
                          message := txt "Permission denied" |})
      engine "/tmp/tmpq1w2e3.in" 60 world_with_busy_input
    = (Ret d, world_with_busy_input) /\
    d !! "result" = Some (txt "error") /\
    d !! "reason" = Some (txt "Permission denied").
Proof.
  split; [reflexivity|].
  destruct (run_prover_exit_paths
              (fails {| cls := PermissionError;
                        message := txt "Permission denied" |})
              engine "/tmp/tmpq1w2e3.in" 60 world_with_busy_input eq_refl)
    as (d & w' & Hrun & Hd & Hw & _ & Hkept & _).
  destruct (Hkept (Other (txt "Device or resource busy")) eq_refl)
    as [Hraise Hsame].
  split; [exact Hraise|].
  exists d. subst w'. split; [exact Hrun|].
  split; rewrite Hd; reflexivity.
Defined.

(** The same run on a file system that lets the input file go: the file is
    removed. *)
Example run_prover_removes_input :
  exists d w',
    _run_prover (fails {| cls := PermissionError;
                          message := txt "Permission denied" |})
      engine "/tmp/tmpq1w2e3.in" 60 world_with_input = (Ret d, w') /\
    files w' !! "/tmp/tmpq1w2e3.in" = None.
Proof.
  eexists _, _. split; [reflexivity|]. reflexivity.
Qed.

End ExitPathsWitness.

(** ** The filter of the parser's two loops *)

Section EndFilter.
Import Notions PyStr FileParser.

Lemma lower_chr_e (c : ascii) :
  chr_eqb "e" (lower_chr c) = chr_eqb c "e" || chr_eqb c "E".
Proof. destruct c as [[] [] [] [] [] [] [] []]; reflexivity. Qed.

Lemma lower_chr_n (c : ascii) :
  chr_eqb "n" (lower_chr c) = chr_eqb c "n" || chr_eqb c "N".
Proof. destruct c as [[] [] [] [] [] [] [] []]; reflexivity. Qed.

Lemma lower_chr_d (c : ascii) :
  chr_eqb "d" (lower_chr c) = chr_eqb c "d" || chr_eqb c "D".
Proof. destruct c as [[] [] [] [] [] [] [] []]; reflexivity. Qed.

(** The test [formula.lower().startswith('end')] holds exactly of the texts
    that begin with e, n, d in any mix of cases. *)
Lemma startswith_end_lower (s : str) :
  startswith (txt "end") (lower s) = begins_with_end s.
Proof.
  destruct s as [|a [|b [|c s]]]; cbn [lower map txt list_ascii_of_string
    startswith begins_with_end];
    rewrite ?lower_chr_e, ?lower_chr_n, ?lower_chr_d, ?andb_false_r,
      ?andb_true_r; try reflexivity.
  rewrite andb_assoc. reflexivity.
Qed.

Lemma is_formula_not_end (f : str) :
  is_formula f = true -> begins_with_end f = false.
Proof.
  unfold is_formula. rewrite startswith_end_lower.
  destruct (begins_with_end f); [|reflexivity].
  rewrite andb_false_r. discriminate.
Qed.

Lemma premises_loop_filter (formulas : list str) :
  premises_loop formulas = List.filter is_formula (map strip formulas).
Proof.
  induction formulas as [|f l IH]; [reflexivity|].
  cbn [premises_loop map List.filter]. rewrite IH. reflexivity.
Qed.

Lemma goals_loop_head (goals : list str) :
  goals_loop goals = head (premises_loop goals).
Proof.
  induction goals as [|g l IH]; [reflexivity|].
  cbn [goals_loop premises_loop].
  destruct (is_formula (strip g)); [reflexivity | exact IH].
Qed.

Lemma premises_loop_Forall (formulas : list str) :
  Forall (fun p => is_formula p = true) (premises_loop formulas).
Proof.
  induction formulas as [|f l IH]; cbn [premises_loop]; [constructor|].
  destruct (is_formula (strip f)) eqn:E; [constructor|]; assumption.
Qed.

(** C10.  No premise and no conclusion that [parse_content] returns begins
    with the letters e, n, d (each in either case): the loops pass over
    every fragment whose trimmed text begins so. *)
Theorem parse_content_no_end (content : str) :
  Forall (fun p => begins_with_end p = false) (fst (parse_content content)) /\
  match snd (parse_content content) with
  | Some conclusion => begins_with_end conclusion = false
  | None => True
  end.
Proof.
  unfold parse_content. cbn [fst snd]. split.
  - destruct (Re.search _ assumptions_re _); [|constructor].
    unfold premises_of_block.
    eapply List.Forall_impl; [|apply premises_loop_Forall].
    intros p. apply is_formula_not_end.
  - destruct (Re.search _ goals_re _); [|exact I].
    unfold conclusion_of_block. rewrite goals_loop_head.
    pose proof (premises_loop_Forall
                  (Re.split Re.no_flags dot_re (strip (Re.group m)))) as H.
    destruct (premises_loop _) as [|g l]; [exact I|].
    cbn [head]. inversion H; subst. apply is_formula_not_end. assumption.
Qed.

(** The formula "endures(socrates)" is lost as a premise and as a goal. *)
Example endures_is_dropped :
  parse_content
    (txt ("formulas(assumptions)." +:+ Fixtures.NL +:+
          "endures(socrates)." +:+ Fixtures.NL +:+
          "man(socrates)." +:+ Fixtures.NL +:+
          "end_of_list." +:+ Fixtures.NL +:+
          "formulas(goals)." +:+ Fixtures.NL +:+
          "endures(socrates)." +:+ Fixtures.NL +:+
          "end_of_list."))
  = ([txt "man(socrates)"], None).
Proof. vm_compute. reflexivity. Qed.

End EndFilter.

(** ** Trimming *)

Section StripFacts.
Import Notions PyStr.

Lemma lstrip_tight (s : str) : tight_left s -> lstrip s = s.
Proof. destruct s as [|c s]; simpl; [reflexivity|]. intros ->. reflexivity. Qed.

Lemma lstrip_is_tight (s : str) : tight_left (lstrip s).
Proof.
  induction s as [|c s IH]; simpl; [exact I|].
  destruct (isspace c) eqn:E; [exact IH | exact E].
Qed.

Lemma lstrip_idem (s : str) : lstrip (lstrip s) = lstrip s.
Proof. apply lstrip_tight, lstrip_is_tight. Qed.

Lemma lstrip_space_app (ws t : str) :
  all_space ws -> lstrip (ws ++ t) = lstrip t.
Proof.
  induction 1 as [|c ws Hc _ IH]; simpl; [reflexivity|].
  rewrite Hc. exact IH.
Qed.

Lemma lstrip_all_space (ws : str) : all_space ws -> lstrip ws = [].
Proof.
  intros H. rewrite <- (app_nil_r ws). rewrite lstrip_space_app by assumption.
  reflexivity.
Qed.

Lemma lstrip_app_nonspace (f r : str) (c : ascii) :
  isspace c = false -> lstrip (f ++ c :: r) = lstrip f ++ c :: r.
Proof.
  intros Hc. induction f as [|x f IH]; simpl.
  - rewrite Hc. reflexivity.
  - destruct (isspace x); [exact IH | reflexivity].
Qed.

(** [lstrip] drops a prefix of whitespace. *)
Lemma lstrip_decompose (s : str) :
  exists ws, all_space ws /\ s = ws ++ lstrip s.
Proof.
  induction s as [|c s (ws & Hws & IH)]; simpl.
  - exists []. split; [constructor | reflexivity].
  - destruct (isspace c) eqn:E.
    + exists (c :: ws). split; [constructor; assumption|].
      simpl. rewrite <- IH. reflexivity.
    + exists []. split; [constructor | reflexivity].
Qed.

Lemma all_space_rev (ws : str) : all_space ws -> all_space (rev ws).
Proof. unfold all_space. rewrite !List.Forall_forall. intros H x Hx.
  apply H. apply in_rev. exact Hx. Qed.

Lemma rstrip_decompose (s : str) :
  exists ws, all_space ws /\ s = rstrip s ++ ws.
Proof.
  unfold rstrip. destruct (lstrip_decompose (rev s)) as (ws & Hws & E).
  exists (rev ws). split; [apply all_space_rev; assumption|].
  rewrite <- rev_app_distr, <- E, rev_involutive. reflexivity.
Qed.

Lemma rstrip_app_nonspace (a b : str) (c : ascii) :
  isspace c = false -> rstrip (a ++ c :: b) = a ++ c :: rstrip b.
Proof.
  intros Hc. unfold rstrip.
  rewrite rev_app_distr. simpl. rewrite <- app_assoc. simpl.
  rewrite lstrip_app_nonspace by assumption.
  rewrite rev_app_distr. simpl. rewrite rev_involutive, <- app_assoc.
  reflexivity.
Qed.

Lemma rstrip_nil : rstrip [] = [].
Proof. reflexivity. Qed.

Lemma rstrip_tight (s : str) : tight_right s -> rstrip s = s.
Proof.
  unfold tight_right, rstrip. intros H. rewrite lstrip_tight by assumption.
  apply rev_involutive.
Qed.

Lemma rstrip_is_tight (s : str) : tight_right (rstrip s).
Proof.
  unfold tight_right, rstrip. rewrite rev_involutive. apply lstrip_is_tight.
Qed.

Lemma rstrip_space_app (t ws : str) :
  all_space ws -> rstrip (t ++ ws) = rstrip t.
Proof.
  intros H. unfold rstrip. rewrite rev_app_distr.
  rewrite lstrip_space_app by (apply all_space_rev; assumption).
  reflexivity.
Qed.

Lemma rstrip_all_space (ws : str) : all_space ws -> rstrip ws = [].
Proof.
  intros H. change ws with ([] ++ ws). rewrite rstrip_space_app by assumption.
  reflexivity.
Qed.

(** Either a text is whitespace only, or it has a first character that is
    not whitespace. *)
Lemma space_or_not (s : str) :
  all_space s \/
  exists ws c m, s = ws ++ c :: m /\ all_space ws /\ isspace c = false.
Proof.
  induction s as [|x s IH].
  - left. constructor.
  - destruct (isspace x) eqn:E.
    + destruct IH as [IH | (ws & c & m & -> & Hws & Hc)].
      * left. constructor; assumption.
      * right. exists (x :: ws), c, m. repeat split; [|assumption].
        constructor; assumption.
    + right. exists [], x, s. repeat split; [constructor | assumption].
Qed.

Lemma lstrip_rstrip (s : str) : lstrip (rstrip s) = rstrip (lstrip s).
Proof.
  destruct (space_or_not s) as [H | (ws & c & m & -> & Hws & Hc)].
  - rewrite (rstrip_all_space _ H), (lstrip_all_space _ H). reflexivity.
  - rewrite rstrip_app_nonspace by assumption.
    rewrite !lstrip_space_app by assumption. simpl. rewrite Hc.
    change (c :: m) with ([] ++ c :: m).
    rewrite rstrip_app_nonspace by assumption. reflexivity.
Qed.

Lemma rstrip_idem (s : str) : rstrip (rstrip s) = rstrip s.
Proof. apply rstrip_tight, rstrip_is_tight. Qed.

Lemma strip_lstrip (s : str) : strip (lstrip s) = strip s.
Proof. unfold strip. rewrite lstrip_idem. reflexivity. Qed.

Lemma strip_rstrip (s : str) : strip (rstrip s) = strip s.
Proof. unfold strip. rewrite lstrip_rstrip, rstrip_idem. reflexivity. Qed.

Lemma strip_idem (s : str) : strip (strip s) = strip s.
Proof. unfold strip at 2. rewrite strip_rstrip, strip_lstrip. reflexivity. Qed.



(** [strip] cuts whitespace off both ends. *)
Lemma strip_decompose (s : str) :
  exists a b, all_space a /\ all_space b /\ s = a ++ strip s ++ b.
Proof.
  destruct (lstrip_decompose s) as (a & Ha & Ea).
  destruct (rstrip_decompose (lstrip s)) as (b & Hb & Eb).
  exists a, b. repeat split; try assumption.
  unfold strip. rewrite <- Eb. exact Ea.
Qed.

Lemma strip_nil : strip [] = [].
Proof. reflexivity. Qed.

End StripFacts.

(** ** The matcher *)

Section MatcherFacts.
Import Notions PyStr.

Lemma consume_closed (x : ascii) (st : Re.mstate) :
  closed st -> Re.consume x st = st.
Proof. unfold closed, Re.consume. intros ->. reflexivity. Qed.

Lemma closed_init : closed Re.init.
Proof. reflexivity. Qed.

Lemma push_closed (g : str) (st : Re.mstate) : closed st -> push g st = st.
Proof.
  intros H. induction g as [|x g IH]; [reflexivity|].
  cbn [push fold_left]. rewrite consume_closed by assumption. exact IH.
Qed.

(** The items of a literal text, matched without regard to case, are a
    prefix test on the lower-case forms. *)
Lemma matcher_lits_push (cs : str) (p : Re.pattern) (st : Re.mstate)
    (s : str) :
  Re.matcher FileParser.search_flags (map (fun c => Re.One (Re.Chr c)) cs ++ p)
    st s
  = if startswith (lower cs) (lower s)
    then Re.matcher FileParser.search_flags p
           (push (firstn (length cs) s) st) (skipn (length cs) s)
    else None.
Proof.
  revert st s. induction cs as [|c cs IH]; intros st s.
  - reflexivity.
  - cbn [map app Re.matcher lower startswith length].
    destruct s as [|x s]; [reflexivity|].
    cbn [lower map startswith skipn firstn Re.accepts FileParser.search_flags
         Re.IGNORECASE push fold_left].
    destruct (chr_eqb (lower_chr c) (lower_chr x)); [|reflexivity].
    apply IH.
Qed.

Lemma matcher_lits (cs : str) (p : Re.pattern) (st : Re.mstate) (s : str) :
  closed st ->
  Re.matcher FileParser.search_flags (map (fun c => Re.One (Re.Chr c)) cs ++ p)
    st s
  = if startswith (lower cs) (lower s)
    then Re.matcher FileParser.search_flags p st (skipn (length cs) s)
    else None.
Proof.
  intros Hst. rewrite matcher_lits_push, push_closed by assumption.
  reflexivity.
Qed.

(** A greedy star over a class succeeds with the answer of the continuation
    at the end of the longest run, when that one succeeds. *)
Lemma star_greedy_hit (k : Re.cont) (st : Re.mstate) (s : str)
    (r : Re.mstate * str) :
  closed st ->
  k st (lstrip s) = Some r ->
  Re.star true isspace k st s = Some r.
Proof.
  intros Hst. induction s as [|x s IH]; simpl; [auto|].
  destruct (isspace x); [|auto].
  intros H. rewrite consume_closed by assumption.
  rewrite (IH H). reflexivity.
Qed.

(** A star fails when the continuation fails everywhere. *)
Lemma star_None (g : bool) (ok : ascii -> bool) (k : Re.cont) (s : str) :
  (forall st n, k st (skipn n s) = None) ->
  forall st, Re.star g ok k st s = None.
Proof.
  induction s as [|x s IH]; intros H st; simpl.
  - apply (H st 0).
  - assert (forall st n, k st (skipn n s) = None) as H'
      by (intros st' n; apply (H st' (S n))).
    pose proof (H st 0) as H0. simpl in H0.
    destruct (ok x); [|exact H0].
    destruct g; rewrite (IH H'), ?H0; reflexivity.
Qed.

(** A star that succeeds does so through its continuation, at some suffix. *)
Lemma star_Some (g : bool) (ok : ascii -> bool) (k : Re.cont) (s : str)
    (st : Re.mstate) (r : Re.mstate * str) :
  Re.star g ok k st s = Some r ->
  exists st' n, k st' (skipn n s) = Some r.
Proof.
  revert st. induction s as [|x s IH]; intros st; simpl.
  - intros H. exists st, 0. exact H.
  - assert (forall st0, Re.star g ok k st0 s = Some r ->
                        exists st' n, k st' (skipn n (x :: s)) = Some r) as IH'.
    { intros st0 H0. destruct (IH _ H0) as (st' & n & Hn).
      exists st', (S n). exact Hn. }
    destruct (ok x); [|intros H; exists st, 0; exact H].
    destruct g.
    + destruct (Re.star true ok k (Re.consume x st) s) eqn:E.
      * intros [= <-]. eapply IH'. exact E.
      * intros H. exists st, 0. exact H.
    + destruct (k st (x :: s)) eqn:E.
      * intros [= <-]. exists st, 0. exact E.
      * apply IH'.
Qed.

(** After a run of whitespace, a continuation that rejects whitespace is
    tried at the end of the run only. *)
Lemma star_greedy_tight (k : Re.cont) (st : Re.mstate) (s : str) :
  closed st ->
  (forall st' x s', isspace x = true -> k st' (x :: s') = None) ->
  Re.star true isspace k st s = k st (lstrip s).
Proof.
  intros Hst Hk. induction s as [|x s IH]; simpl; [reflexivity|].
  destruct (isspace x) eqn:E; [|reflexivity].
  rewrite consume_closed by assumption. rewrite IH.
  destruct (k st (lstrip s)); [reflexivity|]. apply Hk. exact E.
Qed.

(** A lazy star over any character stops at the first place where the
    continuation succeeds. *)
Lemma star_lazy_first (k : Re.cont) (g t : str) (st : Re.mstate)
    (r : Re.mstate * str) :
  (forall g1 x g2, g = g1 ++ x :: g2 -> k (push g1 st) (x :: g2 ++ t) = None)
  -> k (push g st) t = Some r ->
  Re.star false (Re.accepts FileParser.search_flags Re.Any) k st (g ++ t)
  = Some r.
Proof.
  revert st. induction g as [|y g IH]; intros st Hn Hk.
  - simpl in *. destruct t as [|x t]; simpl; [exact Hk|].
    rewrite Hk. reflexivity.
  - cbn [app Re.star]. cbn [Re.accepts FileParser.search_flags Re.DOTALL orb].
    pose proof (Hn [] y g eq_refl) as H0. cbn [push fold_left] in H0.
    rewrite H0.
    apply IH.
    + intros g1 x g2 E. apply (Hn (y :: g1) x g2). rewrite E. reflexivity.
    + exact Hk.
Qed.

Lemma push_open (g acc : str) (g1 : option str) :
  push g {| Re.opened := Some acc; Re.group1 := g1 |}
  = {| Re.opened := Some (rev g ++ acc); Re.group1 := g1 |}.
Proof.
  revert acc. induction g as [|x g IH]; intros acc; [reflexivity|].
  cbn [push fold_left]. unfold Re.consume at 2. cbn [Re.opened Re.group1].
  change (fold_left _ g ?s) with (push g s). rewrite IH.
  cbn [rev]. rewrite <- app_assoc. reflexivity.
Qed.

End MatcherFacts.

(** ** The two block patterns *)

Section BlockFacts.
Import Notions PyStr FileParser.

Lemma space_not_e (x : ascii) :
  isspace x = true -> chr_eqb (lower_chr "e") (lower_chr x) = false.
Proof. destruct x as [[] [] [] [] [] [] [] []]; vm_compute; congruence. Qed.

Lemma lits_app (p : Re.pattern) (s : string) :
  Re.lits s ++ p = map (fun c => Re.One (Re.Chr c)) (txt s) ++ p.
Proof. reflexivity. Qed.

(** The end of a block pattern, from the closing parenthesis on. *)
Lemma close_then_marker (acc : str) (g1 : option str) (s : str) :
  Re.matcher search_flags
    ([Re.Close; Re.Star true Re.Space] ++ Re.lits "end_of_list.")
    {| Re.opened := Some acc; Re.group1 := g1 |} s
  = if begins_ci end_marker (lstrip s)
    then Some ({| Re.opened := None; Re.group1 := Some (rev acc) |},
               skipn (length end_marker) (lstrip s))
    else None.
Proof.
  cbn [app Re.matcher Re.close_group Re.opened].
  change (Re.accepts search_flags Re.Space) with isspace.
  rewrite star_greedy_tight.
  - rewrite <- (app_nil_r (Re.lits _)), lits_app.
    rewrite matcher_lits by reflexivity. reflexivity.
  - reflexivity.
  - intros st' x s' Hx. cbn [Re.lits txt list_ascii_of_string map Re.matcher].
    cbn [Re.accepts search_flags Re.IGNORECASE].
    rewrite (space_not_e _ Hx). reflexivity.
Qed.

Lemma block_tail_unfold (st : Re.mstate) (s : str) :
  Re.matcher search_flags block_tail st s
  = Re.star true isspace
      (fun st u =>
         Re.star false (Re.accepts search_flags Re.Any)
           (Re.matcher search_flags
              ([Re.Close; Re.Star true Re.Space] ++ Re.lits "end_of_list."))
           (Re.open_group st) u)
      st s.
Proof. reflexivity. Qed.



(** A match of a pattern that ends with the end marker shows an end marker
    somewhere in the subject. *)
Lemma match_shows_marker (p : Re.pattern) (st : Re.mstate) (s : str)
    (r : Re.mstate * str) :
  Re.matcher search_flags (p ++ Re.lits "end_of_list.") st s = Some r ->
  exists n, begins_ci end_marker (skipn n s) = true.
Proof.
  revert st s. induction p as [|i p IH]; intros st s.
  - cbn [app]. rewrite <- (app_nil_r (Re.lits _)), lits_app.
    rewrite matcher_lits_push. unfold begins_ci, end_marker.
    destruct (startswith _ (lower s)) eqn:E; [|discriminate].
    intros _. exists 0. exact E.
  - destruct i as [c | g c | | ]; cbn [app Re.matcher].
    + destruct s as [|x s]; [discriminate|].
      destruct (Re.accepts search_flags c x); [|discriminate].
      intros H. destruct (IH _ _ H) as [n Hn]. exists (S n). exact Hn.
    + intros H. apply star_Some in H as (st' & n & H).
      destruct (IH _ _ H) as [m Hm]. exists (n + m).
      rewrite <- drop_drop. exact Hm.
    + apply IH.
    + apply IH.
Qed.

Lemma search_Some (fl : Re.flags) (p : Re.pattern) (s : str)
    (st : Re.mstate) :
  Re.search fl p s = Some st ->
  exists n rest, Re.matcher fl p Re.init (skipn n s) = Some (st, rest).
Proof.
  induction s as [|x s IH]; cbn [Re.search].
  - destruct (Re.matcher fl p Re.init []) as [[st' rest]|] eqn:E;
      [|discriminate].
    intros [= <-]. exists 0, rest. exact E.
  - destruct (Re.matcher fl p Re.init (x :: s)) as [[st' rest]|] eqn:E.
    + intros [= <-]. exists 0, rest. exact E.
    + intros H. destruct (IH H) as (n & rest & Hn). exists (S n), rest.
      exact Hn.
Qed.


End BlockFacts.

(** ** Splitting a block at its periods *)

Section DotSplit.
Import Notions PyStr FileParser.

Lemma has_chr_app (c : ascii) (a b : str) :
  has_chr c (a ++ b) = has_chr c a || has_chr c b.
Proof. apply existsb_app. Qed.

Lemma has_chr_cons (c x : ascii) (s : str) :
  has_chr c (x :: s) = chr_eqb c x || has_chr c s.
Proof. reflexivity. Qed.

Lemma re_split_go_skip (fl : Re.flags) (p : Re.pattern) (k : nat)
    (acc s : str) :
  k <= length s ->
  Re.split_go fl p k acc s = Re.split_go fl p 0 acc (skipn k s).
Proof.
  revert k. induction s as [|c s IH]; intros [|k] Hk; simpl in *;
    try reflexivity; try lia.
  apply IH. lia.
Qed.

Lemma lstrip_length (s : str) : length (lstrip s) <= length s.
Proof.
  destruct (lstrip_decompose s) as (ws & _ & E).
  rewrite E at 2. rewrite length_app. lia.
Qed.

Lemma lstrip_skipn (s : str) :
  skipn (length s - length (lstrip s)) s = lstrip s.
Proof.
  destruct (lstrip_decompose s) as (ws & _ & E).
  rewrite E at 1 3. rewrite length_app.
  replace (length ws + length (lstrip s) - length (lstrip s))
    with (length ws) by lia.
  apply drop_app_length.
Qed.

(** The pattern [\.\s*] at the head of a text. *)
Lemma dot_re_match (x : ascii) (s : str) :
  Re.matcher Re.no_flags dot_re Re.init (x :: s)
  = if chr_eqb "." x then Some (Re.init, lstrip s) else None.
Proof.
  cbn [dot_re Re.matcher Re.accepts Re.no_flags Re.IGNORECASE].
  destruct (chr_eqb "." x); [|reflexivity].
  change (Re.accepts _ Re.Space) with isspace.
  apply star_greedy_hit; reflexivity.
Qed.

Lemma dot_split_dot (acc s : str) :
  Re.split_go Re.no_flags dot_re 0 acc ("."%char :: s)
  = rev acc :: Re.split_go Re.no_flags dot_re 0 [] (lstrip s).
Proof.
  cbn [Re.split_go]. rewrite dot_re_match. rewrite chr_eqb_refl.
  pose proof (lstrip_length s) as Hl.
  replace (length ("."%char :: s) - length (lstrip s))
    with (S (length s - length (lstrip s))) by (simpl; lia).
  rewrite re_split_go_skip by lia. rewrite lstrip_skipn. reflexivity.
Qed.

Lemma dot_split_other (acc s : str) (x : ascii) :
  chr_eqb "." x = false ->
  Re.split_go Re.no_flags dot_re 0 acc (x :: s)
  = Re.split_go Re.no_flags dot_re 0 (x :: acc) s.
Proof.
  intros Hx. cbn [Re.split_go]. rewrite dot_re_match, Hx. reflexivity.
Qed.

Lemma dot_split_piece (f acc s : str) :
  has_chr "." f = false ->
  Re.split_go Re.no_flags dot_re 0 acc (f ++ "."%char :: s)
  = (rev acc ++ f) :: Re.split_go Re.no_flags dot_re 0 [] (lstrip s).
Proof.
  revert acc. induction f as [|x f IH]; intros acc Hf.
  - cbn [app]. rewrite app_nil_r. apply dot_split_dot.
  - rewrite has_chr_cons in Hf. apply orb_false_iff in Hf as [Hx Hf].
    cbn [app]. rewrite dot_split_other by assumption.
    rewrite IH by assumption. cbn [rev]. rewrite <- app_assoc. reflexivity.
Qed.

Lemma dot_split_last (f acc : str) :
  has_chr "." f = false ->
  Re.split_go Re.no_flags dot_re 0 acc f = [rev acc ++ f].
Proof.
  revert acc. induction f as [|x f IH]; intros acc Hf.
  - cbn [Re.split_go]. rewrite app_nil_r. reflexivity.
  - rewrite has_chr_cons in Hf. apply orb_false_iff in Hf as [Hx Hf].
    rewrite dot_split_other by assumption.
    rewrite IH by assumption. cbn [rev]. rewrite <- app_assoc. reflexivity.
Qed.

Lemma join_cons (sep x : str) (rest : list str) :
  rest <> [] -> join sep (x :: rest) = x ++ sep ++ join sep rest.
Proof. destruct rest; [congruence | reflexivity]. Qed.

Lemma lstrip_join_dot (g : str) (fs : list str) :
  lstrip (join dot (g :: fs)) = join dot (lstrip g :: fs).
Proof.
  destruct fs as [|f fs]; [reflexivity|].
  rewrite !join_cons by discriminate.
  apply (lstrip_app_nonspace g _ "."). reflexivity.
Qed.

Lemma rstrip_join_dot (fs : list str) (l : str) :
  rstrip (join dot (fs ++ [l])) = join dot (fs ++ [rstrip l]).
Proof.
  induction fs as [|f fs IH]; [reflexivity|].
  cbn [app]. rewrite !join_cons by (destruct fs; discriminate).
  rewrite <- IH. apply (rstrip_app_nonspace f _ "."). reflexivity.
Qed.

Lemma has_chr_lstrip (c : ascii) (s : str) :
  has_chr c s = false -> has_chr c (lstrip s) = false.
Proof.
  destruct (lstrip_decompose s) as (ws & _ & E). intros H.
  rewrite E, has_chr_app in H. apply orb_false_iff in H as [_ H]. exact H.
Qed.

Lemma has_chr_rstrip (c : ascii) (s : str) :
  has_chr c s = false -> has_chr c (rstrip s) = false.
Proof.
  destruct (rstrip_decompose s) as (ws & _ & E). intros H.
  rewrite E, has_chr_app in H. apply orb_false_iff in H as [H _]. exact H.
Qed.

(** The pieces of a joined text, as [re.split] finds them, trimmed. *)
Lemma dot_split_join (fs : list str) (f acc : str) :
  dot_free (f :: fs) ->
  map strip (Re.split_go Re.no_flags dot_re 0 acc (join dot (f :: fs)))
  = strip (rev acc ++ f) :: map strip fs.
Proof.
  revert f acc. induction fs as [|g fs IH]; intros f acc H.
  - inversion H; subst. cbn [join]. rewrite dot_split_last by assumption.
    reflexivity.
  - inversion H as [|? ? Hf Hrest]; subst.
    rewrite join_cons by discriminate.
    change (f ++ dot ++ join dot (g :: fs))
      with (f ++ "."%char :: join dot (g :: fs)).
    rewrite dot_split_piece by assumption. cbn [map]. f_equal.
    rewrite lstrip_join_dot.
    inversion Hrest as [|? ? Hg Hfs]; subst.
    rewrite IH.
    + cbn [rev app map]. rewrite strip_lstrip. reflexivity.
    + constructor; [apply has_chr_lstrip; assumption | assumption].
Qed.

(** Trimming a joined text trims its first and its last piece. *)
Lemma strip_join_dot (f : str) (fs : list str) :
  dot_free (f :: fs) ->
  exists f' fs',
    strip (join dot (f :: fs)) = join dot (f' :: fs') /\
    dot_free (f' :: fs') /\
    map strip (f' :: fs') = map strip (f :: fs).
Proof.
  intros H.
  replace (strip (join dot (f :: fs)))
    with (rstrip (join dot (lstrip f :: fs)))
    by (unfold strip; rewrite lstrip_join_dot; reflexivity).
  assert (dot_free (lstrip f :: fs)) as H'.
  { inversion H; subst. constructor; [apply has_chr_lstrip|]; assumption. }
  assert (map strip (lstrip f :: fs) = map strip (f :: fs)) as Hm
    by (cbn [map]; rewrite strip_lstrip; reflexivity).
  rewrite <- Hm. clear Hm H.
  destruct (exists_last (l := lstrip f :: fs)) as (init & l & E);
    [discriminate|].
  rewrite E in *. rewrite rstrip_join_dot.
  apply Forall_app in H' as [Hi Hl]. inversion Hl; subst.
  destruct init as [|f' init'].
  - exists (rstrip l), []. cbn [app map]. rewrite strip_rstrip.
    repeat split. constructor; [apply has_chr_rstrip; assumption|constructor].
  - exists f', (init' ++ [rstrip l]). repeat split.
    + change (f' :: init' ++ [rstrip l]) with ((f' :: init') ++ [rstrip l]).
      apply Forall_app. split; [exact Hi|].
      constructor; [apply has_chr_rstrip; assumption | constructor].
    + change (f' :: init' ++ [rstrip l]) with ((f' :: init') ++ [rstrip l]).
      rewrite !map_app. cbn [map]. rewrite strip_rstrip. reflexivity.
Qed.

(** The premises of a block that reads [f1.f2. ... .fn]: the pieces,
    trimmed, without the empty ones and those that begin with "end". *)
Lemma premises_of_joined (pieces : list str) :
  dot_free pieces ->
  premises_of_block (join dot pieces)
  = List.filter is_formula (map strip pieces).
Proof.
  intros H. unfold premises_of_block. rewrite premises_loop_filter.
  destruct pieces as [|f fs]; [reflexivity|].
  destruct (strip_join_dot f fs H) as (f' & fs' & -> & H' & <-).
  unfold Re.split. rewrite dot_split_join by assumption. reflexivity.
Qed.

Lemma conclusion_of_joined (pieces : list str) :
  dot_free pieces ->
  conclusion_of_block (join dot pieces)
  = head (List.filter is_formula (map strip pieces)).
Proof.
  intros H. unfold conclusion_of_block. rewrite goals_loop_head.
  rewrite <- premises_of_joined by assumption. reflexivity.
Qed.

End DotSplit.

(** ** [str.split] at one character *)

Section ChrSplit.
Import Notions PyStr.

Lemma split_chr_cons (c x : ascii) (acc s : str) :
  split_go [c] 0 acc (x :: s)
  = if chr_eqb c x then rev acc :: split_go [c] 0 [] s
    else split_go [c] 0 (x :: acc) s.
Proof.
  cbn [split_go startswith length Nat.sub]. rewrite andb_true_r.
  reflexivity.
Qed.

Lemma split_go_nonempty (c : ascii) (acc s : str) :
  split_go [c] 0 acc s <> [].
Proof.
  revert acc. induction s as [|x s IH]; intros acc; [discriminate|].
  rewrite split_chr_cons. destruct (chr_eqb c x); [discriminate | apply IH].
Qed.

Lemma join_split_go (c : ascii) (acc s : str) :
  join [c] (split_go [c] 0 acc s) = rev acc ++ s.
Proof.
  revert acc. induction s as [|x s IH]; intros acc.
  - cbn [split_go join]. rewrite app_nil_r. reflexivity.
  - rewrite split_chr_cons. destruct (chr_eqb c x) eqn:E.
    + apply chr_eqb_eq in E. subst x.
      rewrite join_cons by apply split_go_nonempty.
      rewrite IH. reflexivity.
    + rewrite IH. cbn [rev]. rewrite <- app_assoc. reflexivity.
Qed.

(** Joining the pieces of a split gives the text back. *)
Lemma join_split (c : ascii) (s : str) : join [c] (split [c] s) = s.
Proof. apply join_split_go. Qed.

Lemma has_chr_rev (c : ascii) (s : str) : has_chr c (rev s) = has_chr c s.
Proof.
  induction s as [|x s IH]; [reflexivity|].
  cbn [rev]. rewrite has_chr_app, IH, has_chr_cons. cbn [has_chr existsb].
  rewrite orb_false_r. apply orb_comm.
Qed.

Lemma split_go_free (c : ascii) (acc s : str) :
  has_chr c acc = false ->
  Forall (fun f => has_chr c f = false) (split_go [c] 0 acc s).
Proof.
  revert acc. induction s as [|x s IH]; intros acc Hacc.
  - constructor; [|constructor]. rewrite has_chr_rev. exact Hacc.
  - rewrite split_chr_cons. destruct (chr_eqb c x) eqn:E.
    + constructor; [rewrite has_chr_rev; exact Hacc | apply IH; reflexivity].
    + apply IH. rewrite has_chr_cons, E, Hacc. reflexivity.
Qed.

(** No piece of a split holds the separator. *)
Lemma split_free (c : ascii) (s : str) :
  Forall (fun f => has_chr c f = false) (split [c] s).
Proof. apply split_go_free. reflexivity. Qed.

Lemma split_go_piece (c : ascii) (f acc s : str) :
  has_chr c f = false ->
  split_go [c] 0 acc (f ++ c :: s) = (rev acc ++ f) :: split_go [c] 0 [] s.
Proof.
  revert acc. induction f as [|x f IH]; intros acc Hf.
  - cbn [app]. rewrite split_chr_cons, chr_eqb_refl, app_nil_r. reflexivity.
  - rewrite has_chr_cons in Hf. apply orb_false_iff in Hf as [Hx Hf].
    cbn [app]. rewrite split_chr_cons, Hx, IH by assumption.
    cbn [rev]. rewrite <- app_assoc. reflexivity.
Qed.

Lemma split_go_last (c : ascii) (f acc : str) :
  has_chr c f = false -> split_go [c] 0 acc f = [rev acc ++ f].
Proof.
  revert acc. induction f as [|x f IH]; intros acc Hf.
  - cbn [split_go]. rewrite app_nil_r. reflexivity.
  - rewrite has_chr_cons in Hf. apply orb_false_iff in Hf as [Hx Hf].
    rewrite split_chr_cons, Hx, IH by assumption.
    cbn [rev]. rewrite <- app_assoc. reflexivity.
Qed.

(** Splitting a joined list of pieces that do not hold the separator gives
    the pieces back. *)
Lemma split_join (c : ascii) (f : str) (fs : list str) :
  Forall (fun f => has_chr c f = false) (f :: fs) ->
  split [c] (join [c] (f :: fs)) = f :: fs.
Proof.
  unfold split. revert f. induction fs as [|g fs IH]; intros f H.
  - inversion H; subst. cbn [join]. apply split_go_last. assumption.
  - inversion H as [|? ? Hf Hrest]; subst.
    rewrite join_cons by discriminate.
    change (f ++ [c] ++ join [c] (g :: fs)) with (f ++ c :: join [c] (g :: fs)).
    rewrite split_go_piece by assumption. rewrite IH by assumption.
    reflexivity.
Qed.

End ChrSplit.

(** ** The two loops of the parser, on the located block *)

Section Blocks.
Import Notions PyStr FileParser Fixtures.

(** The premises of a block are its pieces between periods, trimmed, without
    the empty ones and those that begin with "end". *)
Lemma premises_of_block_split (g : str) :
  premises_of_block g
  = List.filter is_formula (map strip (split (txt ".") g)).
Proof.
  rewrite <- (join_split "." g) at 1.
  apply premises_of_joined. apply (split_free "." g).
Qed.

Lemma conclusion_of_block_split (g : str) :
  conclusion_of_block g
  = head (List.filter is_formula (map strip (split (txt ".") g))).
Proof.
  rewrite <- (join_split "." g) at 1.
  apply conclusion_of_joined. apply (split_free "." g).
Qed.

(** C5 (as amended).  The premise sequence is made from the text of group 1
    of the assumptions match by cutting it at every period, followed by
    whitespace or not (any whitespace after the period goes with the cut):
    it is the sequence of the pieces of [group.split(".")], each trimmed,
    without the empty pieces and the pieces that begin with "end", in their
    order.  Without a match there is no premise. *)
Theorem premises_cut_at_every_period (content : str) :
  fst (parse_content content)
  = match Re.search search_flags assumptions_re (strip_comments content) with
    | Some assumptions_match =>
        List.filter is_formula
          (map strip (split (txt ".") (Re.group assumptions_match)))
    | None => []
    end.
Proof.
  unfold parse_content. cbn [fst].
  destruct (Re.search _ assumptions_re _); [|reflexivity].
  apply premises_of_block_split.
Qed.

(** C5 as stated fails: the period of "1.5" is followed by no whitespace and
    cuts the formula "weight(x, 1.5)" in two; a split at periods followed
    by whitespace would keep it whole. *)
Lemma period_without_whitespace_splits :
  let content :=
    txt ("formulas(assumptions)." +:+ NL +:+
         "weight(x, 1.5)." +:+ NL +:+
         "heavy(x)." +:+ NL +:+
         "end_of_list.") in
  fst (parse_content content) = [txt "weight(x, 1"; txt "5)"; txt "heavy(x)"]
  /\ spec_premises_of_block
       (txt ("weight(x, 1.5)." +:+ NL +:+ "heavy(x)."))
     = [txt "weight(x, 1.5)"; txt "heavy(x)."].
Proof. split; vm_compute; reflexivity. Qed.

(** C6 (as amended).  The conclusion is made from the text of group 1 of
    the goals match: it is the first of the pieces of [group.split(".")]
    that, trimmed, is not empty and does not begin with "end"; every later
    piece is left out.  Without a match, or without such a piece, there is
    no conclusion. *)
Theorem conclusion_is_first_kept_piece (content : str) :
  snd (parse_content content)
  = match Re.search search_flags goals_re (strip_comments content) with
    | Some goals_match =>
        head (List.filter is_formula
                (map strip (split (txt ".") (Re.group goals_match))))
    | None => None
    end.
Proof.
  unfold parse_content. cbn [snd].
  destruct (Re.search _ goals_re _); [|reflexivity].
  apply conclusion_of_block_split.
Qed.

(** C6 as stated fails: of the two goals "endures(socrates)" and
    "mortal(socrates)" the first is passed over and the second returned. *)
Lemma first_goal_passed_over :
  let content :=
    txt ("formulas(assumptions)." +:+ NL +:+
         "man(socrates)." +:+ NL +:+
         "end_of_list." +:+ NL +:+
         "formulas(goals)." +:+ NL +:+
         "endures(socrates)." +:+ NL +:+
         "mortal(socrates)." +:+ NL +:+
         "end_of_list.") in
  parse_content content = ([txt "man(socrates)"], Some (txt "mortal(socrates)"))
  /\ snd (parse_content content) <> Some (txt "endures(socrates)").
Proof.
  cbv zeta. split; [vm_compute; reflexivity|].
  vm_compute. discriminate.
Qed.

(** Two goals: the first is the conclusion. *)
Example first_goal_wins :
  parse_content
    (txt ("formulas(goals)." +:+ NL +:+
          "mortal(socrates)." +:+ NL +:+
          "mortal(plato)." +:+ NL +:+
          "end_of_list."))
  = ([], Some (txt "mortal(socrates)")).
Proof. vm_compute. reflexivity. Qed.

End Blocks.

(** ** Occurrences *)

Section Occurrences.
Import Notions PyStr FileParser.

Lemma contains_spec (p s : str) :
  contains p s = true <-> exists pre post, s = pre ++ p ++ post.
Proof.
  split.
  - induction s as [|x s IH]; cbn [contains].
    + rewrite orb_false_r. intros H. apply startswith_spec in H as [r ->].
      exists [], r. reflexivity.
    + intros H. apply orb_true_iff in H as [H | H].
      * apply startswith_spec in H as [r ->]. exists [], r. reflexivity.
      * destruct (IH H) as (pre & post & ->). exists (x :: pre), post.
        reflexivity.
  - intros (pre & post & ->). induction pre as [|x pre IH].
    + cbn [app]. destruct (p ++ post) eqn:E; cbn [contains];
        rewrite <- E, startswith_app; reflexivity.
    + cbn [app contains]. rewrite IH. apply orb_true_r.
Qed.

Lemma contains_infix (p m a b : str) :
  contains p m = true -> contains p (a ++ m ++ b) = true.
Proof.
  intros H. apply contains_spec in H as (pre & post & ->).
  apply contains_spec. exists (a ++ pre), (post ++ b).
  rewrite <- !app_assoc. reflexivity.
Qed.

Lemma startswith_app_chr (c : ascii) (p u v : str) :
  has_chr c p = false ->
  startswith p (u ++ c :: v) = startswith p u.
Proof.
  revert u. induction p as [|y p IH]; intros u H; [reflexivity|].
  rewrite has_chr_cons in H. apply orb_false_iff in H as [Hy Hp].
  destruct u as [|x u]; cbn [app startswith].
  - rewrite chr_eqb_sym, Hy. reflexivity.
  - rewrite IH by assumption. reflexivity.
Qed.

Lemma contains_app_chr (c : ascii) (p a b : str) :
  has_chr c p = false -> p <> [] ->
  contains p (a ++ c :: b) = true ->
  contains p a = true \/ contains p b = true.
Proof.
  intros Hc Hp. induction a as [|x a IH]; cbn [app contains].
  - change (c :: b) with ([] ++ c :: b) at 1.
    rewrite startswith_app_chr by assumption.
    destruct p as [|y p]; [congruence|]. cbn [startswith orb]. auto.
  - change (x :: a ++ c :: b) with ((x :: a) ++ c :: b).
    rewrite startswith_app_chr by assumption.
    intros H. apply orb_true_iff in H as [H | H].
    + left. rewrite H. reflexivity.
    + destruct (IH H) as [Ha | Hb]; [left | right; exact Hb].
      rewrite Ha. apply orb_true_r.
Qed.

(** An occurrence in joined lines of a text without the separator lies in
    one of the lines. *)
Lemma contains_join (c : ascii) (p : str) (ls : list str) :
  has_chr c p = false -> p <> [] ->
  contains p (join [c] ls) = true ->
  exists l, In l ls /\ contains p l = true.
Proof.
  intros Hc Hp. induction ls as [|l ls IH].
  - cbn [join contains]. destruct p; [congruence | discriminate].
  - destruct ls as [|l' ls].
    + cbn [join]. intros H. exists l. split; [left; reflexivity | exact H].
    + rewrite join_cons by discriminate.
      change (l ++ [c] ++ join [c] (l' :: ls))
        with (l ++ c :: join [c] (l' :: ls)).
      intros H. apply contains_app_chr in H as [H | H]; try assumption.
      * exists l. split; [left; reflexivity | exact H].
      * destruct (IH H) as (l0 & Hin & Hl0). exists l0.
        split; [right; exact Hin | exact Hl0].
Qed.

Lemma in_join_infix (sep l : str) (ls : list str) :
  In l ls -> exists a b, join sep ls = a ++ l ++ b.
Proof.
  induction ls as [|x ls IH]; [contradiction|].
  intros [-> | Hin].
  - destruct ls as [|y ls].
    + exists [], []. cbn [join app]. rewrite app_nil_r. reflexivity.
    + exists [], (sep ++ join sep (y :: ls)). reflexivity.
  - destruct (IH Hin) as (a & b & E).
    exists (x ++ sep ++ a), b.
    rewrite join_cons by (destruct ls; [contradiction | discriminate]).
    rewrite E, <- !app_assoc. reflexivity.
Qed.

Lemma lower_chr_dot (c : ascii) :
  chr_eqb "." (lower_chr c) = chr_eqb "." c.
Proof. destruct c as [[] [] [] [] [] [] [] []]; reflexivity. Qed.

Lemma lower_chr_nl (c : ascii) :
  chr_eqb "010" (lower_chr c) = chr_eqb "010" c.
Proof. destruct c as [[] [] [] [] [] [] [] []]; reflexivity. Qed.


Lemma has_chr_lower_nl (s : str) : has_chr "010" (lower s) = has_chr "010" s.
Proof.
  induction s as [|x s IH]; [reflexivity|].
  cbn [lower map]. rewrite !has_chr_cons, lower_chr_nl.
  f_equal. exact IH.
Qed.

Lemma lower_app (a b : str) : lower (a ++ b) = lower a ++ lower b.
Proof. apply map_app. Qed.

Lemma lower_join_nl (ls : list str) :
  lower (join nl ls) = join nl (map lower ls).
Proof.
  induction ls as [|l ls IH]; [reflexivity|].
  destruct ls as [|l' ls]; [reflexivity|].
  cbn [map] in *. rewrite !join_cons by discriminate.
  rewrite !lower_app, IH. reflexivity.
Qed.

(** The marker "end_of_list.", in any mix of cases, occurs in the content
    as parsed only if it occurs in the content as given. *)
Lemma occurs_strip_comments (marker content : str) :
  has_chr "010" (lower marker) = false -> marker <> [] ->
  occurs_ci marker (strip_comments content) = true ->
  occurs_ci marker content = true.
Proof.
  intros Hnl Hne. unfold occurs_ci, strip_comments.
  rewrite lower_join_nl. intros H.
  apply (contains_join "010") in H as (l' & Hin & Hl');
    [|assumption|destruct marker; [congruence | discriminate]].
  apply in_map_iff in Hin as (l & <- & Hin).
  apply filter_In in Hin as [Hin _].
  apply in_map_iff in Hin as (l0 & <- & Hin).
  destruct (strip_decompose l0) as (a & b & _ & _ & E).
  destruct (in_join_infix nl l0 _ Hin) as (u & v & Hj).
  change nl with ["010"%char] in Hj.
  rewrite (join_split "010" content) in Hj.
  rewrite Hj, E, !lower_app.
  apply contains_infix. apply contains_infix. exact Hl'.
Qed.

Lemma lower_skipn (n : nat) (s : str) : lower (skipn n s) = skipn n (lower s).
Proof. unfold lower. symmetry. apply skipn_map. Qed.

(** Without an end marker in the subject, a pattern that ends with the end
    marker matches nowhere. *)
Lemma search_no_marker (p : Re.pattern) (s : str) :
  occurs_ci end_marker s = false ->
  Re.search search_flags (p ++ Re.lits "end_of_list.") s = None.
Proof.
  intros H.
  destruct (Re.search _ _ s) as [st|] eqn:E; [|reflexivity].
  apply search_Some in E as (n & rest & E).
  apply match_shows_marker in E as [m E].
  unfold begins_ci in E. rewrite !lower_skipn in E.
  rewrite drop_drop in E.
  rewrite (contains_skipn _ _ _ H) in E. discriminate.
Qed.

End Occurrences.

(** ** A header and a marker after it *)

Section Followed.
Import Notions PyStr FileParser.

Lemma infix_of_app_l (x s t : str) : infix_of x s -> infix_of x (s ++ t).
Proof.
  intros (a & d & ->). exists a, (d ++ t). rewrite <- !app_assoc. reflexivity.
Qed.

Lemma infix_of_app_r (x s t : str) : infix_of x s -> infix_of x (t ++ s).
Proof.
  intros (a & d & ->). exists (t ++ a), d. rewrite <- !app_assoc. reflexivity.
Qed.

Lemma seq2_app_l (x y s t : str) : seq2 x y s -> seq2 x y (s ++ t).
Proof.
  intros (a & b & d & ->). exists a, b, (d ++ t).
  rewrite <- !app_assoc. reflexivity.
Qed.

Lemma seq2_app_r (x y s t : str) : seq2 x y s -> seq2 x y (t ++ s).
Proof.
  intros (a & b & d & ->). exists (t ++ a), b, d.
  rewrite <- !app_assoc. reflexivity.
Qed.

Lemma seq2_app (x y s t : str) :
  infix_of x s -> infix_of y t -> seq2 x y (s ++ t).
Proof.
  intros (a & d & ->) (a' & d' & ->). exists a, (d ++ a'), d'.
  rewrite <- !app_assoc. reflexivity.
Qed.

Lemma infix_of_strip (x l : str) : infix_of x (strip l) -> infix_of x l.
Proof.
  intros H. destruct (strip_decompose l) as (a & b & _ & _ & E).
  rewrite E. apply infix_of_app_r, infix_of_app_l. exact H.
Qed.

Lemma seq2_strip (x y l : str) : seq2 x y (strip l) -> seq2 x y l.
Proof.
  intros H. destruct (strip_decompose l) as (a & b & _ & _ & E).
  rewrite E. apply seq2_app_r, seq2_app_l. exact H.
Qed.

(** Where a character [c] of a text [u ++ c :: v] falls when the text is
    cut in two. *)
Lemma app_chr_split (c : ascii) (u v p q : str) :
  u ++ c :: v = p ++ q ->
  (exists q1, p = u ++ c :: q1 /\ v = q1 ++ q) \/
  (exists p2, u = p ++ p2 /\ q = p2 ++ c :: v).
Proof.
  intros E. apply app_eq_app in E as [l [[-> E] | [-> E]]].
  - right. exists l. split; [reflexivity | exact E].
  - destruct l as [|x l].
    + right. exists []. rewrite !app_nil_r. split; [reflexivity|].
      cbn [app] in *. symmetry. exact E.
    + left. cbn [app] in E. injection E as <- ->. exists l.
      split; reflexivity.
Qed.

Lemma no_chr_in (c : ascii) (x p r : str) :
  has_chr c x = false -> x <> p ++ c :: r.
Proof.
  intros H ->. rewrite has_chr_app, has_chr_cons, chr_eqb_refl in H.
  rewrite orb_true_r in H. discriminate.
Qed.

(** A text [x], then a text [y], neither with the character [c], in a text
    [u ++ c :: v]: both in [u], or [x] in [u] and [y] in [v], or both in
    [v]. *)
Lemma seq2_app_chr (c : ascii) (x y u v : str) :
  has_chr c x = false -> has_chr c y = false ->
  seq2 x y (u ++ c :: v) ->
  seq2 x y u \/ (infix_of x u /\ infix_of y v) \/ seq2 x y v.
Proof.
  intros Hx Hy (a & b & d & E).
  apply app_chr_split in E as [(a1 & -> & ->) | (p2 & -> & E)].
  { right. right. exists a1, b, d. reflexivity. }
  symmetry in E. apply app_chr_split in E as [(r & Ex & _) | (p3 & -> & E)].
  { exfalso. exact (no_chr_in c x p2 r Hx Ex). }
  symmetry in E. apply app_chr_split in E as [(b1 & -> & ->) | (p4 & -> & E)].
  { right. left. split.
    - exists a, p3. reflexivity.
    - exists b1, d. reflexivity. }
  symmetry in E. apply app_chr_split in E as [(r & Ey & _) | (p5 & -> & _)].
  { exfalso. exact (no_chr_in c y p4 r Hy Ey). }
  left. exists a, b, p5. reflexivity.
Qed.

Lemma infix_of_app_chr (c : ascii) (x u v : str) :
  has_chr c x = false -> infix_of x (u ++ c :: v) ->
  infix_of x u \/ infix_of x v.
Proof.
  intros Hx (a & d & E).
  apply app_chr_split in E as [(a1 & -> & ->) | (p2 & -> & E)].
  { right. exists a1, d. reflexivity. }
  symmetry in E. apply app_chr_split in E as [(r & Ex & _) | (p3 & -> & _)].
  { exfalso. exact (no_chr_in c x p2 r Hx Ex). }
  left. exists a, p3. reflexivity.
Qed.

Lemma infix_of_nil (x : str) : x <> [] -> ~ infix_of x [].
Proof.
  intros Hx (a & d & E). symmetry in E.
  apply app_eq_nil in E as [_ E]. apply app_eq_nil in E as [E _].
  congruence.
Qed.

Lemma seq2_infix (x y s : str) : seq2 x y s -> infix_of x s.
Proof. intros (a & b & d & ->). exists a, (b ++ y ++ d). reflexivity. Qed.

(** The lines kept by [strip_comments], joined. *)
Lemma kept_lines_cons (l : str) (ls : list str) :
  join nl (List.filter keep_line (map strip (l :: ls)))
  = if keep_line (strip l)
    then match List.filter keep_line (map strip ls) with
         | [] => strip l
         | _ :: _ =>
             strip l ++ "010"%char
             :: join nl (List.filter keep_line (map strip ls))
         end
    else join nl (List.filter keep_line (map strip ls)).
Proof.
  cbn [map List.filter]. destruct (keep_line (strip l)); [|reflexivity].
  destruct (List.filter keep_line (map strip ls)); reflexivity.
Qed.

Lemma join_nl_cons (l : str) (ls : list str) :
  join nl (l :: ls)
  = match ls with
    | [] => l
    | _ :: _ => l ++ "010"%char :: join nl ls
    end.
Proof. destruct ls; reflexivity. Qed.

(** A text without line break that occurs in the kept lines occurs in the
    lines. *)
Lemma infix_kept_lines (x : str) (ls : list str) :
  x <> [] -> has_chr "010" x = false ->
  infix_of x (join nl (List.filter keep_line (map strip ls))) ->
  infix_of x (join nl ls).
Proof.
  intros Hne Hx. induction ls as [|l ls IH].
  - intros H. exact H.
  - rewrite kept_lines_cons, join_nl_cons. intros H.
    assert (infix_of x (join nl (List.filter keep_line (map strip ls))) ->
            infix_of x match ls with
                       | [] => l
                       | _ :: _ => l ++ "010"%char :: join nl ls
                       end) as Hrest.
    { intros H'. apply IH in H'. destruct ls as [|l' ls'].
      - exfalso. exact (infix_of_nil x Hne H').
      - change (l ++ "010"%char :: join nl (l' :: ls'))
          with (l ++ ["010"%char] ++ join nl (l' :: ls')).
        apply infix_of_app_r, infix_of_app_r. exact H'. }
    assert (infix_of x (strip l) ->
            infix_of x match ls with
                       | [] => l
                       | _ :: _ => l ++ "010"%char :: join nl ls
                       end) as Hhere.
    { intros H'. apply infix_of_strip in H'.
      destruct ls; [exact H' | apply infix_of_app_l; exact H']. }
    destruct (keep_line (strip l)); [|auto].
    destruct (List.filter keep_line (map strip ls)) as [|k ks] eqn:Ek; [auto|].
    apply infix_of_app_chr in H as [H | H]; auto.
Qed.

(** Two texts without line break that occur one after the other in the
    kept lines occur one after the other in the lines. *)
Lemma seq2_kept_lines (x y : str) (ls : list str) :
  x <> [] -> y <> [] -> has_chr "010" x = false -> has_chr "010" y = false ->
  seq2 x y (join nl (List.filter keep_line (map strip ls))) ->
  seq2 x y (join nl ls).
Proof.
  intros Hxne Hyne Hx Hy. induction ls as [|l ls IH].
  - intros H. exact H.
  - rewrite kept_lines_cons, join_nl_cons. intros H.
    assert (seq2 x y (join nl (List.filter keep_line (map strip ls))) ->
            seq2 x y match ls with
                     | [] => l
                     | _ :: _ => l ++ "010"%char :: join nl ls
                     end) as Hrest.
    { intros H'. apply IH in H'. destruct ls as [|l' ls'].
      - exfalso. apply (infix_of_nil x Hxne). exact (seq2_infix _ _ _ H').
      - change (l ++ "010"%char :: join nl (l' :: ls'))
          with (l ++ ["010"%char] ++ join nl (l' :: ls')).
        apply seq2_app_r, seq2_app_r. exact H'. }
    assert (seq2 x y (strip l) ->
            seq2 x y match ls with
                     | [] => l
                     | _ :: _ => l ++ "010"%char :: join nl ls
                     end) as Hhere.
    { intros H'. apply seq2_strip in H'.
      destruct ls; [exact H' | apply seq2_app_l; exact H']. }
    destruct (keep_line (strip l)); [|auto].
    destruct (List.filter keep_line (map strip ls)) as [|k ks] eqn:Ek; [auto|].
    apply seq2_app_chr in H as [H | [[H1 H2] | H]]; auto.
    rewrite <- Ek in H2. apply infix_kept_lines in H2; try assumption.
    apply infix_of_strip in H1.
    destruct ls as [|l' ls'].
    + exfalso. exact (infix_of_nil y Hyne H2).
    + apply seq2_app; [exact H1|].
      change ("010"%char :: join nl (l' :: ls'))
        with (["010"%char] ++ join nl (l' :: ls')).
      apply infix_of_app_r. exact H2.
Qed.

Lemma seq2_strip_comments (x y content : str) :
  x <> [] -> y <> [] -> has_chr "010" x = false -> has_chr "010" y = false ->
  seq2 x y (strip_comments content) -> seq2 x y content.
Proof.
  intros Hxne Hyne Hx Hy H. unfold strip_comments in H.
  apply seq2_kept_lines in H; try assumption.
  change nl with ["010"%char] in H. rewrite join_split in H. exact H.
Qed.

Lemma lower_length (s : str) : length (lower s) = length s.
Proof. apply length_map. Qed.

Lemma lower_eq_length (x h : str) : lower x = lower h -> length x = length h.
Proof.
  intros E. apply (f_equal (@length _)) in E. rewrite !lower_length in E.
  exact E.
Qed.

Lemma begins_ci_spec (h s : str) :
  begins_ci h s = true <-> exists x r, s = x ++ r /\ lower x = lower h.
Proof.
  unfold begins_ci. split.
  - intros H. apply startswith_spec in H as [r' E].
    exists (firstn (length h) s), (skipn (length h) s).
    split; [symmetry; apply firstn_skipn|].
    unfold lower in *. rewrite <- firstn_map, E.
    rewrite <- (length_map lower_chr h). apply take_app_length.
  - intros (x & r & -> & E). rewrite lower_app, E. apply startswith_app.
Qed.

Lemma occurs_ci_spec (m s : str) :
  occurs_ci m s = true <->
  exists a y d, s = a ++ y ++ d /\ lower y = lower m.
Proof.
  unfold occurs_ci. split.
  - induction s as [|c s IH]; cbn [lower map contains].
    + rewrite orb_false_r. intros H.
      apply (begins_ci_spec m []) in H as (x & r & E & Hx).
      exists [], x, r. split; [exact E | exact Hx].
    + intros H. apply orb_true_iff in H as [H | H].
      * apply (begins_ci_spec m (c :: s)) in H as (x & r & E & Hx).
        exists [], x, r. split; [exact E | exact Hx].
      * destruct (IH H) as (a & y & d & -> & Hy).
        exists (c :: a), y, d. split; [reflexivity | exact Hy].
  - intros (a & y & d & -> & Hy). rewrite !lower_app, Hy.
    apply contains_spec. eauto.
Qed.

Lemma followed_ci_spec (h m s : str) :
  followed_ci h m s = true <->
  exists a x b y d,
    s = a ++ x ++ b ++ y ++ d /\ lower x = lower h /\ lower y = lower m.
Proof.
  split.
  - induction s as [|c s IH]; cbn [followed_ci].
    + rewrite orb_false_r. intros H. apply andb_true_iff in H as [Hb Ho].
      apply begins_ci_spec in Hb as (x & r & E & Hx).
      rewrite E, <- (lower_eq_length _ _ Hx), drop_app_length in Ho.
      apply occurs_ci_spec in Ho as (b & y & d & -> & Hy).
      exists [], x, b, y, d. auto.
    + intros H. apply orb_true_iff in H as [H | H].
      * apply andb_true_iff in H as [Hb Ho].
        apply begins_ci_spec in Hb as (x & r & E & Hx).
        rewrite E, <- (lower_eq_length _ _ Hx), drop_app_length in Ho.
        apply occurs_ci_spec in Ho as (b & y & d & -> & Hy).
        exists [], x, b, y, d. auto.
      * destruct (IH H) as (a & x & b & y & d & -> & Hx & Hy).
        exists (c :: a), x, b, y, d. auto.
  - intros (a & x & b & y & d & -> & Hx & Hy).
    assert (followed_ci h m (x ++ b ++ y ++ d) = true) as H0.
    { destruct (x ++ b ++ y ++ d) eqn:E; cbn [followed_ci]; rewrite <- E;
        (replace (begins_ci h (x ++ b ++ y ++ d)) with true
           by (symmetry; apply begins_ci_spec; eauto));
        rewrite <- (lower_eq_length _ _ Hx), drop_app_length;
        (replace (occurs_ci m (b ++ y ++ d)) with true
           by (symmetry; apply occurs_ci_spec; eauto));
        reflexivity. }
    induction a as [|c a IH]; [exact H0|].
    cbn [app followed_ci]. rewrite IH. apply orb_true_r.
Qed.

Lemma lower_nonempty (x h : str) : lower x = lower h -> h <> [] -> x <> [].
Proof. intros E Hh ->. destruct h; [congruence | discriminate]. Qed.

Lemma lower_no_nl (x h : str) :
  lower x = lower h -> has_chr "010" (lower h) = false ->
  has_chr "010" x = false.
Proof. intros E H. rewrite <- has_chr_lower_nl, E. exact H. Qed.

(** A header and a marker after it in the content as parsed are there in
    the content as given. *)
Lemma followed_strip_comments (h m content : str) :
  h <> [] -> m <> [] ->
  has_chr "010" (lower h) = false -> has_chr "010" (lower m) = false ->
  followed_ci h m (strip_comments content) = true ->
  followed_ci h m content = true.
Proof.
  intros Hh Hm Hhn Hmn H.
  apply followed_ci_spec in H as (a & x & b & y & d & E & Hx & Hy).
  assert (seq2 x y content) as (a' & b' & d' & E').
  { apply seq2_strip_comments.
    - exact (lower_nonempty _ _ Hx Hh).
    - exact (lower_nonempty _ _ Hy Hm).
    - exact (lower_no_nl _ _ Hx Hhn).
    - exact (lower_no_nl _ _ Hy Hmn).
    - exists a, b, d. exact E. }
  apply followed_ci_spec. exists a', x, b', y, d'. auto.
Qed.

Lemma startswith_contains (p s : str) (n : nat) :
  startswith p (skipn n s) = true -> contains p s = true.
Proof.
  intros H. destruct (contains p s) eqn:E; [reflexivity|].
  rewrite (contains_skipn _ _ n E) in H. discriminate.
Qed.

Lemma followed_at (h m s : str) (n : nat) :
  begins_ci h (skipn n s) = true ->
  occurs_ci m (skipn (length h) (skipn n s)) = true ->
  followed_ci h m s = true.
Proof.
  revert s. induction n as [|n IH]; intros s Hb Ho.
  - change (drop 0 s) with s in *.
    destruct s; cbn [followed_ci]; rewrite Hb, Ho; reflexivity.
  - destruct s as [|c s].
    + cbn [skipn] in *. cbn [followed_ci]. rewrite Hb, Ho. reflexivity.
    + cbn [followed_ci]. rewrite (IH s Hb Ho). apply orb_true_r.
Qed.

(** A match of a block pattern shows its header and an end marker after it. *)
Lemma search_followed (header : string) (s : str) (st : Re.mstate) :
  Re.search search_flags (Re.lits header ++ block_tail) s = Some st ->
  followed_ci (txt header) end_marker s = true.
Proof.
  intros H. apply search_Some in H as (n & rest & H).
  rewrite lits_app, matcher_lits in H by reflexivity.
  destruct (startswith (lower (txt header)) (lower (skipn n s))) eqn:Hb;
    [|discriminate].
  change block_tail
    with ([Re.Star true Re.Space; Re.Open; Re.Star false Re.Any; Re.Close;
           Re.Star true Re.Space] ++ Re.lits "end_of_list.") in H.
  apply match_shows_marker in H as [k Hk].
  apply (followed_at _ _ _ n); [exact Hb|].
  unfold begins_ci in Hk. rewrite lower_skipn in Hk.
  unfold occurs_ci. exact (startswith_contains _ _ _ Hk).
Qed.

End Followed.

Section NoMarker.
Import Notions PyStr FileParser Fixtures.

(** Without an end marker in the content there is no block at all. *)
Lemma no_marker_no_block (content : str) :
  occurs_ci end_marker content = false ->
  parse_content content = ([], None).
Proof.
  intros H.
  assert (occurs_ci end_marker (strip_comments content) = false) as H'.
  { destruct (occurs_ci end_marker (strip_comments content)) eqn:E;
      [|reflexivity].
    apply occurs_strip_comments in E; [congruence|reflexivity|discriminate]. }
  unfold parse_content.
  change assumptions_re
    with ((Re.lits "formulas(assumptions)."
           ++ [Re.Star true Re.Space; Re.Open; Re.Star false Re.Any; Re.Close;
               Re.Star true Re.Space]) ++ Re.lits "end_of_list.").
  change goals_re
    with ((Re.lits "formulas(goals)."
           ++ [Re.Star true Re.Space; Re.Open; Re.Star false Re.Any; Re.Close;
               Re.Star true Re.Space]) ++ Re.lits "end_of_list.").
  rewrite !search_no_marker by assumption. reflexivity.
Qed.

(** Without an end marker after a goals header there is no conclusion. *)
Lemma no_marker_after_goals_header (content : str) :
  followed_ci header2 end_marker content = false ->
  snd (parse_content content) = None.
Proof.
  intros H. unfold parse_content. cbn [snd].
  change goals_re with (Re.lits "formulas(goals)." ++ block_tail).
  destruct (Re.search _ _ _) as [st|] eqn:E; [|reflexivity].
  apply search_followed in E.
  apply followed_strip_comments in E;
    [|discriminate|discriminate|reflexivity|reflexivity].
  unfold header2 in H. congruence.
Qed.




End NoMarker.

(** ** The way through the input file and back *)

Section RoundTripFacts.
Import Notions PyStr FileParser Server Fixtures.








End RoundTripFacts.

Section RoundTrip.
Import Notions PyStr FileParser Server Fixtures.


Lemma terminated_plain (p : str) :
  has_chr "." p = false -> terminated p = with_dot p.
Proof.
  intros H. unfold terminated, with_dot.
  destruct (endswith (txt ".") p) eqn:E; [|reflexivity].
  apply endswith_dot_rev in E as [r E].
  rewrite <- has_chr_rev, E in H. discriminate.
Qed.


Lemma join_app (sep : str) (l1 l2 : list str) :
  l1 <> [] -> l2 <> [] ->
  join sep (l1 ++ l2) = join sep l1 ++ sep ++ join sep l2.
Proof.
  intros H1 H2. induction l1 as [|x l1 IH]; [congruence|].
  destruct l1 as [|y l1].
  - cbn [app]. apply join_cons. assumption.
  - cbn [app] in *. rewrite (join_cons sep x (y :: l1 ++ l2)) by discriminate.
    rewrite IH by discriminate.
    rewrite (join_cons sep x (y :: l1)) by discriminate.
    rewrite <- !app_assoc. reflexivity.
Qed.

















End RoundTrip.

(** * Further properties of the parser *)

Section CleanedLines.
Import Notions PyStr FileParser.

Lemma split_go_app_chr (c : ascii) (a b acc : str) :
  split_go [c] 0 acc (a ++ c :: b)
  = split_go [c] 0 acc a ++ split_go [c] 0 [] b.
Proof.
  revert acc. induction a as [|x a IH]; intros acc.
  - cbn [app]. rewrite split_chr_cons, chr_eqb_refl. reflexivity.
  - cbn [app]. rewrite !split_chr_cons.
    destruct (chr_eqb c x); rewrite IH; reflexivity.
Qed.

(** The lines of a text with a line break in it: the lines before it, then
    the lines after it. *)
Lemma split_app_nl (a b : str) :
  split nl (a ++ nl ++ b) = split nl a ++ split nl b.
Proof. apply (split_go_app_chr "010" a b []). Qed.

Lemma has_chr_strip (c : ascii) (s : str) :
  has_chr c s = false -> has_chr c (strip s) = false.
Proof. intros H. apply has_chr_rstrip, has_chr_lstrip. exact H. Qed.

(** The content as parsed, for a content given by its lines. *)
Lemma strip_comments_lines (ls : list str) :
  Forall (fun l => has_chr "010" l = false) ls ->
  strip_comments (join nl ls)
  = join nl (List.filter keep_line (map strip ls)).
Proof.
  intros H. destruct ls as [|l ls]; [reflexivity|].
  unfold strip_comments. change nl with ["010"%char].
  rewrite split_join by exact H. reflexivity.
Qed.

Lemma strip_comments_split (content : str) :
  strip_comments content
  = join nl (List.filter keep_line (map strip (split nl content))).
Proof. reflexivity. Qed.

Lemma filter_keep_strip (ls : list str) :
  List.filter keep_line (map strip (map strip ls))
  = List.filter keep_line (map strip ls).
Proof.
  rewrite map_map. f_equal. apply map_ext. intros l. apply strip_idem.
Qed.

Lemma strip_lines_free (ls : list str) :
  Forall (fun l => has_chr "010" l = false) ls ->
  Forall (fun l => has_chr "010" l = false) (map strip ls).
Proof.
  intros H. apply List.Forall_forall. intros l Hl.
  apply in_map_iff in Hl as (l0 & <- & Hin).
  apply has_chr_strip. rewrite List.Forall_forall in H. auto.
Qed.

(** Trimming every line of a content does not change the content as
    parsed. *)
Lemma strip_comments_trimmed_lines (content : str) :
  strip_comments (join nl (map strip (split nl content)))
  = strip_comments content.
Proof.
  rewrite strip_comments_lines
    by (apply strip_lines_free; apply (split_free "010")).
  rewrite filter_keep_strip. reflexivity.
Qed.

(** X1.  The white space at the two ends of the lines of a content does not
    matter: the content whose lines are trimmed is parsed to the same
    premises and the same conclusion. *)
Theorem parse_content_trimmed_lines (content : str) :
  parse_content (join nl (map strip (split nl content)))
  = parse_content content.
Proof.
  unfold parse_content. rewrite strip_comments_trimmed_lines. reflexivity.
Qed.

Lemma strip_comments_drop_line (a b : list str) (line : str) :
  keep_line (strip line) = false ->
  List.filter keep_line (map strip (a ++ line :: b))
  = List.filter keep_line (map strip (a ++ b)).
Proof.
  intros H. rewrite !map_app, !List.filter_app. cbn [map List.filter].
  rewrite H. reflexivity.
Qed.

(** X2.  A comment line (its first character after white space is "%") and
    a blank line are ignored wherever they stand: before the first line,
    between two lines, after the last line. *)
Theorem parse_content_ignores_line (a b line : str) :
  has_chr "010" line = false ->
  keep_line (strip line) = false ->
  parse_content (line ++ nl ++ b) = parse_content b /\
  parse_content (a ++ nl ++ line ++ nl ++ b) = parse_content (a ++ nl ++ b) /\
  parse_content (a ++ nl ++ line) = parse_content a.
Proof.
  intros Hnl Hk.
  assert (split nl line = [line]) as Hl
    by (apply (split_go_last "010" line []); exact Hnl).
  assert (strip_comments (line ++ nl ++ b) = strip_comments b) as E1.
  { rewrite !strip_comments_split, split_app_nl, Hl.
    apply (f_equal (join nl)).
    apply (strip_comments_drop_line [] (split nl b) line Hk). }
  assert (strip_comments (a ++ nl ++ line ++ nl ++ b)
          = strip_comments (a ++ nl ++ b)) as E2.
  { rewrite !strip_comments_split, !split_app_nl, Hl.
    apply (f_equal (join nl)).
    apply (strip_comments_drop_line (split nl a) (split nl b) line Hk). }
  assert (strip_comments (a ++ nl ++ line) = strip_comments a) as E3.
  { rewrite !strip_comments_split, split_app_nl, Hl.
    apply (f_equal (join nl)).
    rewrite (strip_comments_drop_line (split nl a) [] line Hk).
    rewrite app_nil_r. reflexivity. }
  unfold parse_content. rewrite E1, E2, E3. auto.
Qed.

Lemma parse_content_ignores_line_witness :
  has_chr "010" (txt "  % the syllogism") = false /\
  keep_line (strip (txt "  % the syllogism")) = false /\
  parse_content
    (txt "formulas(assumptions)." ++ nl ++ txt "  % the syllogism" ++ nl
     ++ txt "man(socrates). end_of_list.")
  = parse_content
      (txt "formulas(assumptions)." ++ nl
       ++ txt "man(socrates). end_of_list.").
Proof.
  split; [reflexivity|]. split; [reflexivity|].
  apply (parse_content_ignores_line (txt "formulas(assumptions).")
           (txt "man(socrates). end_of_list.") (txt "  % the syllogism"));
    reflexivity.
Defined.

End CleanedLines.

Section ReturnedFormulas.
Import Notions PyStr FileParser Server.

Lemma kept_pieces_clean (g : str) :
  Forall (fun p => p <> [] /\ has_chr "." p = false /\ strip p = p)
    (List.filter is_formula (map strip (split (txt ".") g))).
Proof.
  apply List.Forall_forall. intros p Hp.
  apply filter_In in Hp as [Hin Hf].
  apply in_map_iff in Hin as (q & <- & Hq).
  split; [|split].
  - unfold is_formula in Hf. destruct (strip q); [discriminate | congruence].
  - apply has_chr_strip.
    pose proof (split_free "." g) as Hfree.
    rewrite List.Forall_forall in Hfree. apply Hfree. exact Hq.
  - apply strip_idem.
Qed.

(** X3.  Every premise and every conclusion that [parse_content] returns is
    not empty, holds no period, and has no white space at its two ends. *)
Theorem parse_content_formulas_clean (content : str) :
  Forall (fun p => p <> [] /\ has_chr "." p = false /\ strip p = p)
    (fst (parse_content content)) /\
  match snd (parse_content content) with
  | Some c => c <> [] /\ has_chr "." c = false /\ strip c = c
  | None => True
  end.
Proof.
  unfold parse_content. cbn [fst snd]. split.
  - destruct (Re.search _ assumptions_re _) as [m|]; [|constructor].
    rewrite premises_of_block_split. apply kept_pieces_clean.
  - destruct (Re.search _ goals_re _) as [m|]; [|exact I].
    rewrite conclusion_of_block_split.
    pose proof (kept_pieces_clean (Re.group m)) as H.
    destruct (List.filter _ _) as [|c l]; [exact I|].
    inversion H; subst. assumption.
Qed.

Lemma trailing_dots_free (p : str) :
  has_chr "." p = false -> trailing_dots p = 0.
Proof.
  intros H. unfold trailing_dots. rewrite <- has_chr_rev in H.
  destruct (rev p) as [|x r]; [reflexivity|].
  rewrite has_chr_cons in H. apply orb_false_iff in H as [Hx _].
  cbn [leading_dots]. rewrite chr_eqb_sym, Hx. reflexivity.
Qed.

Lemma terminated_free (p : str) :
  has_chr "." p = false ->
  terminated p = p ++ txt "." /\ trailing_dots (terminated p) = 1.
Proof.
  intros H. split.
  - apply terminated_plain. exact H.
  - rewrite terminated_trailing_dots, trailing_dots_free by exact H.
    reflexivity.
Qed.

(** X4.  What the parser returns, the synthesizer writes with one period:
    for every premise and conclusion [p] that [parse_content] returns, the
    line that [_create_input_file] writes for [p] is [p] followed by one
    period, and it ends with exactly one period. *)
Theorem parsed_formulas_get_one_period (content : str) :
  Forall (fun p => terminated p = p ++ txt "." /\
                   trailing_dots (terminated p) = 1)
    (fst (parse_content content)) /\
  match snd (parse_content content) with
  | Some c => terminated c = c ++ txt "." /\ trailing_dots (terminated c) = 1
  | None => True
  end.
Proof.
  unfold parse_content. cbn [fst snd]. split.
  - destruct (Re.search _ assumptions_re _) as [m|]; [|constructor].
    rewrite premises_of_block_split.
    eapply List.Forall_impl; [|apply kept_pieces_clean].
    intros p (_ & Hd & _). apply terminated_free. exact Hd.
  - destruct (Re.search _ goals_re _) as [m|]; [|exact I].
    rewrite conclusion_of_block_split.
    pose proof (kept_pieces_clean (Re.group m)) as H.
    destruct (List.filter _ _) as [|c l]; [exact I|].
    inversion H as [|? ? (_ & Hd & _) _]; subst.
    apply terminated_free. exact Hd.
Qed.

End ReturnedFormulas.

(** ** Letter case *)

Section LetterCase.
Import Notions MoreNotions PyStr FileParser.

Lemma isspace_lower (c : ascii) : isspace (lower_chr c) = isspace c.
Proof. destruct c as [[] [] [] [] [] [] [] []]; reflexivity. Qed.

Lemma lower_chr_idem (c : ascii) : lower_chr (lower_chr c) = lower_chr c.
Proof. destruct c as [[] [] [] [] [] [] [] []]; reflexivity. Qed.

Lemma lower_chr_percent (c : ascii) :
  chr_eqb "%" (lower_chr c) = chr_eqb "%" c.
Proof. destruct c as [[] [] [] [] [] [] [] []]; reflexivity. Qed.

Lemma lower_idem (s : str) : lower (lower s) = lower s.
Proof.
  unfold lower. rewrite map_map. apply map_ext. apply lower_chr_idem.
Qed.

Lemma lower_rev (s : str) : lower (rev s) = rev (lower s).
Proof. apply map_rev. Qed.

Lemma lstrip_lower (s : str) : lstrip (lower s) = lower (lstrip s).
Proof.
  induction s as [|c s IH]; [reflexivity|].
  cbn [lower map lstrip]. rewrite isspace_lower.
  destruct (isspace c); [exact IH | reflexivity].
Qed.

Lemma strip_lower (s : str) : strip (lower s) = lower (strip s).
Proof.
  unfold strip, rstrip.
  rewrite lstrip_lower, <- lower_rev, lstrip_lower, lower_rev. reflexivity.
Qed.

Lemma split_go_lower (c : ascii) (acc s : str) :
  (forall x, chr_eqb c (lower_chr x) = chr_eqb c x) ->
  split_go [c] 0 (lower acc) (lower s) = map lower (split_go [c] 0 acc s).
Proof.
  intros Hc. revert acc. induction s as [|x s IH]; intros acc.
  - cbn [lower map split_go]. rewrite <- lower_rev. reflexivity.
  - cbn [lower map]. rewrite !split_chr_cons, Hc.
    destruct (chr_eqb c x).
    + cbn [map]. rewrite <- lower_rev. f_equal. apply (IH []).
    + apply (IH (x :: acc)).
Qed.

Lemma filter_map_same {A} (f : A -> bool) (g : A -> A) (l : list A) :
  (forall x, f (g x) = f x) ->
  List.filter f (map g l) = map g (List.filter f l).
Proof.
  intros H. induction l as [|x l IH]; [reflexivity|].
  cbn [map List.filter]. rewrite H.
  destruct (f x); cbn [map]; rewrite IH; reflexivity.
Qed.

Lemma keep_line_lower (l : str) : keep_line (lower l) = keep_line l.
Proof.
  destruct l as [|x l]; [reflexivity|].
  unfold keep_line. cbn [lower map nonempty startswith txt
                         list_ascii_of_string].
  rewrite lower_chr_percent. reflexivity.
Qed.

Lemma is_formula_lower (f : str) : is_formula (lower f) = is_formula f.
Proof.
  unfold is_formula. rewrite lower_idem. destruct f; reflexivity.
Qed.

(** The content as parsed, of a content in lower case. *)
Lemma strip_comments_lower (content : str) :
  strip_comments (lower content) = lower (strip_comments content).
Proof.
  unfold strip_comments. rewrite lower_join_nl.
  unfold split. change nl with ["010"%char].
  pose proof (split_go_lower "010" [] content lower_chr_nl) as Hs.
  change (lower []) with (@nil ascii) in Hs. rewrite Hs.
  rewrite map_map.
  rewrite (map_ext (fun x => strip (lower x)) (fun x => lower (strip x)))
    by (intros x; apply strip_lower).
  rewrite <- (map_map strip lower).
  rewrite (filter_map_same keep_line lower) by apply keep_line_lower.
  reflexivity.
Qed.

Lemma accepts_lower (c : Re.cls) (x : ascii) :
  Re.accepts search_flags c (lower_chr x) = Re.accepts search_flags c x.
Proof.
  destruct c as [| |a]; cbn [Re.accepts search_flags Re.DOTALL Re.IGNORECASE].
  - reflexivity.
  - apply isspace_lower.
  - rewrite lower_chr_idem. reflexivity.
Qed.

Lemma consume_lower (x : ascii) (st : Re.mstate) :
  Re.consume (lower_chr x) (lower_state st) = lower_state (Re.consume x st).
Proof.
  unfold Re.consume, lower_state. destruct st as [[acc|] g]; reflexivity.
Qed.

Lemma star_lower (g : bool) (c : Re.cls) (k k' : Re.cont) :
  (forall st s, k' (lower_state st) (lower s) = lower_answer (k st s)) ->
  forall st s,
    Re.star g (Re.accepts search_flags c) k' (lower_state st) (lower s)
    = lower_answer (Re.star g (Re.accepts search_flags c) k st s).
Proof.
  intros Hk st s. revert st. induction s as [|x s IH]; intros st.
  - cbn [lower map Re.star]. apply (Hk st []).
  - cbn [lower map Re.star]. rewrite accepts_lower.
    pose proof (Hk st (x :: s)) as Hx. cbn [lower map] in Hx.
    destruct (Re.accepts search_flags c x); [|exact Hx].
    rewrite consume_lower, IH, Hx.
    destruct g.
    + destruct (Re.star true _ k (Re.consume x st) s) as [[st' r]|];
        reflexivity.
    + destruct (k st (x :: s)) as [[st' r]|]; reflexivity.
Qed.

(** The matcher of a pattern compiled with IGNORECASE and DOTALL finds in a
    subject in lower case what it finds in the subject, in lower case. *)
Lemma matcher_lower (p : Re.pattern) (st : Re.mstate) (s : str) :
  Re.matcher search_flags p (lower_state st) (lower s)
  = lower_answer (Re.matcher search_flags p st s).
Proof.
  revert st s. induction p as [|i p IH]; intros st s; [reflexivity|].
  destruct i as [c | g c | | ]; cbn [Re.matcher].
  - destruct s as [|x s]; [reflexivity|].
    cbn [lower map]. rewrite accepts_lower.
    destruct (Re.accepts search_flags c x); [|reflexivity].
    rewrite consume_lower. apply IH.
  - apply star_lower. exact IH.
  - rewrite <- IH. reflexivity.
  - rewrite <- IH. f_equal.
    unfold Re.close_group, lower_state. destruct st as [[acc|] g1];
      cbn [Re.opened Re.group1 option_map]; [|reflexivity].
    rewrite <- lower_rev. reflexivity.
Qed.

Lemma search_lower (p : Re.pattern) (s : str) :
  Re.search search_flags p (lower s)
  = option_map lower_state (Re.search search_flags p s).
Proof.
  induction s as [|x s IH].
  - pose proof (matcher_lower p Re.init []) as H.
    change (lower_state Re.init) with Re.init in H.
    change (lower []) with (@nil ascii) in *.
    cbn [Re.search].
    destruct (Re.matcher search_flags p Re.init []) as [[st r]|];
      [|reflexivity].
    cbn [lower_answer] in H. injection H as Hst _.
    cbn [option_map]. f_equal. exact Hst.
  - pose proof (matcher_lower p Re.init (x :: s)) as H.
    change (lower_state Re.init) with Re.init in H.
    change (lower (x :: s)) with (lower_chr x :: lower s) in *.
    cbn [Re.search]. rewrite H.
    destruct (Re.matcher search_flags p Re.init (x :: s)) as [[st r]|];
      [reflexivity | exact IH].
Qed.

Lemma group_lower (st : Re.mstate) :
  Re.group (lower_state st) = lower (Re.group st).
Proof. unfold Re.group, lower_state. destruct st as [o [g|]]; reflexivity. Qed.

Lemma kept_pieces_lower (g : str) :
  List.filter is_formula (map strip (split (txt ".") (lower g)))
  = map lower (List.filter is_formula (map strip (split (txt ".") g))).
Proof.
  unfold split.
  pose proof (split_go_lower "." [] g lower_chr_dot) as Hs.
  change (lower []) with (@nil ascii) in Hs.
  change (txt ".") with ["."%char]. rewrite Hs.
  rewrite map_map.
  rewrite (map_ext (fun x => strip (lower x)) (fun x => lower (strip x)))
    by (intros x; apply strip_lower).
  rewrite <- (map_map strip lower).
  apply filter_map_same. apply is_formula_lower.
Qed.

(** X5.  On texts of code points below 256, letter case is content only.
    The content in lower case is parsed to the premises and the conclusion
    of the content, in lower case: the headers and the end marker are found
    in any mix of upper and lower case, and the case of the letters decides
    nothing else. *)
Theorem parse_content_lower (content : str) :
  parse_content (lower content)
  = (map lower (fst (parse_content content)),
     option_map lower (snd (parse_content content))).
Proof.
  unfold parse_content. cbn [fst snd].
  rewrite strip_comments_lower, !search_lower. f_equal.
  - destruct (Re.search search_flags assumptions_re _) as [m|];
      [|reflexivity].
    cbn [option_map]. rewrite !premises_of_block_split, group_lower.
    apply kept_pieces_lower.
  - destruct (Re.search search_flags goals_re _) as [m|]; [|reflexivity].
    cbn [option_map]. rewrite !conclusion_of_block_split, group_lower.
    rewrite kept_pieces_lower.
    destruct (List.filter _ _); reflexivity.
Qed.

End LetterCase.

(** ** A goals block without its end marker *)

Section GoalsMarker.
Import Notions PyStr FileParser Fixtures.

(** X6.  For a content of code points below 256 in which no end marker
    "end_of_list." occurs after a goals header "formulas(goals)." (both in
    any mix of upper and lower case), [parse_content] returns no
    conclusion, whatever the formulas that follow the header. *)
Theorem no_conclusion_without_marker (content : str) :
  followed_ci header2 end_marker content = false ->
  snd (parse_content content) = None.
Proof.
  intros H. unfold parse_content. cbn [snd].
  change goals_re with (Re.lits "formulas(goals)." ++ block_tail).
  destruct (Re.search _ _ _) as [st|] eqn:E; [|reflexivity].
  exfalso. apply search_followed in E.
  apply followed_strip_comments in E;
    [|discriminate|discriminate|reflexivity|reflexivity].
  unfold header2 in H. rewrite H in E. discriminate.
Qed.

Lemma no_conclusion_without_marker_witness :
  let content :=
    txt ("formulas(assumptions)." +:+ NL +:+
         "man(socrates)." +:+ NL +:+
         "end_of_list." +:+ NL +:+
         NL +:+
         "formulas(goals)." +:+ NL +:+
         "mortal(socrates).") in
  followed_ci header2 end_marker content = false /\
  parse_content content = ([txt "man(socrates)"], None).
Proof.
  cbv zeta. split; [reflexivity|].
  apply injective_projections; [reflexivity|].
  apply no_conclusion_without_marker. reflexivity.
Defined.

End GoalsMarker.


(** * The first block wins *)

Section FirstBlock.
Import Notions MoreNotions PyStr FileParser Fixtures.

Lemma marker_head (x : ascii) (s : str) :
  begins_ci end_marker (x :: s) = true -> isspace x = false.
Proof.
  intros H. destruct (isspace x) eqn:E; [|reflexivity].
  unfold begins_ci, end_marker in H.
  cbn [txt list_ascii_of_string lower map startswith] in H.
  rewrite (space_not_e x E) in H. discriminate.
Qed.

Lemma marker_length (s : str) :
  begins_ci end_marker s = true -> length end_marker <= length s.
Proof.
  intros H. apply startswith_length in H. rewrite !lower_length in H.
  exact H.
Qed.

Lemma begins_ci_app (m a u : str) :
  length m <= length a -> begins_ci m (a ++ u) = begins_ci m a.
Proof.
  intros H. unfold begins_ci. rewrite lower_app.
  apply startswith_app_long. rewrite !lower_length. exact H.
Qed.

(** Where an end marker begins somewhere in a text, trimming the text on
    the left stops before the marker, whatever follows the text. *)
Lemma marker_lstrip_app (a u : str) :
  marker_in a ->
  lstrip (a ++ u) = lstrip a ++ u /\ length end_marker <= length (lstrip a).
Proof.
  intros [q H]. revert q H. induction a as [|x a IH]; intros q H.
  - rewrite skipn_nil in H. discriminate.
  - cbn [app lstrip]. destruct (isspace x) eqn:E.
    + destruct q as [|q].
      * apply marker_head in H. congruence.
      * apply (IH q). exact H.
    + split; [reflexivity|].
      apply marker_length in H. rewrite length_drop in H. lia.
Qed.

Lemma marker_in_lstrip (a : str) : marker_in a -> marker_in (lstrip a).
Proof.
  intros [q H]. revert q H. induction a as [|x a IH]; intros q H.
  - exists q. exact H.
  - cbn [lstrip]. destruct (isspace x) eqn:E; [|exists q; exact H].
    destruct q as [|q].
    + apply marker_head in H. congruence.
    + apply (IH q). exact H.
Qed.

Lemma marker_in_app_l (g w : str) : marker_in w -> marker_in (g ++ w).
Proof.
  intros [q H]. exists (length g + q).
  rewrite <- drop_drop, drop_app_length. exact H.
Qed.

Lemma marker_at_lstrip (w : str) :
  begins_ci end_marker (lstrip w) = true -> marker_in w.
Proof.
  intros H. exists (length w - length (lstrip w)).
  rewrite lstrip_skipn. exact H.
Qed.

(** The marker after the trimmed text is seen in the same way when the text
    goes on. *)
Lemma marker_seen_app (a u : str) :
  marker_in a ->
  begins_ci end_marker (lstrip (a ++ u)) = begins_ci end_marker (lstrip a).
Proof.
  intros H. destruct (marker_lstrip_app a u H) as [-> Hl].
  apply begins_ci_app. exact Hl.
Qed.

(** The first place of a text from which, after white space, an end marker
    begins. *)
Lemma first_end (v : str) :
  marker_in v ->
  exists g w,
    v = g ++ w /\
    begins_ci end_marker (lstrip w) = true /\
    forall g1 x g2, g = g1 ++ x :: g2 ->
                    begins_ci end_marker (lstrip (x :: g2 ++ w)) = false.
Proof.
  induction v as [|x v IH]; intros [m H].
  - rewrite skipn_nil in H. discriminate.
  - destruct (begins_ci end_marker (lstrip (x :: v))) eqn:E.
    + exists [], (x :: v). split; [reflexivity|]. split; [exact E|].
      intros g1 y g2 Hg. destruct g1; discriminate.
    + destruct m as [|m].
      * change (drop 0 (x :: v)) with (x :: v) in H.
        pose proof (marker_head _ _ H) as Hx.
        cbn [lstrip] in E. rewrite Hx in E. congruence.
      * destruct IH as (g & w & -> & Hw & Hfirst); [exists m; exact H|].
        exists (x :: g), w. split; [reflexivity|]. split; [exact Hw|].
        intros g1 y g2 Hg. destruct g1 as [|z g1].
        -- injection Hg as <- <-. exact E.
        -- injection Hg as <- Hg. apply (Hfirst g1 y g2 Hg).
Qed.

(** What follows the header in a block pattern, on a text that reads [g]
    and then (after white space) the end marker. *)
Lemma tail_match (st : Re.mstate) (v g w : str) :
  closed st ->
  lstrip v = g ++ w ->
  (forall g1 x g2, g = g1 ++ x :: g2 ->
                   begins_ci end_marker (lstrip (x :: g2 ++ w)) = false) ->
  begins_ci end_marker (lstrip w) = true ->
  Re.matcher search_flags block_tail st v
  = Some ({| Re.opened := None; Re.group1 := Some g |},
          skipn (length end_marker) (lstrip w)).
Proof.
  intros Hst Hg Hfirst Hend.
  rewrite block_tail_unfold.
  apply star_greedy_hit; [exact Hst|]. rewrite Hg.
  apply star_lazy_first.
  - intros g1 x g2 E. unfold Re.open_group.
    rewrite push_open, close_then_marker, (Hfirst _ _ _ E). reflexivity.
  - unfold Re.open_group.
    rewrite push_open, close_then_marker, Hend.
    rewrite app_nil_r, rev_involutive. reflexivity.
Qed.

(** What follows the header matches wherever an end marker is ahead. *)
Lemma tail_complete (st : Re.mstate) (v : str) :
  closed st -> marker_in v ->
  exists r, Re.matcher search_flags block_tail st v = Some r.
Proof.
  intros Hst Hm.
  destruct (first_end (lstrip v) (marker_in_lstrip v Hm))
    as (g & w & Hg & Hend & Hfirst).
  eexists. apply (tail_match st v g w); assumption.
Qed.

Lemma tail_shows_marker (st : Re.mstate) (v : str) (r : Re.mstate * str) :
  Re.matcher search_flags block_tail st v = Some r -> marker_in v.
Proof.
  intros H. unfold block_tail in H.
  apply match_shows_marker in H. exact H.
Qed.

(** A match of what follows the header is the match on every longer
    text. *)
Lemma tail_app (st st' : Re.mstate) (v u r : str) :
  closed st ->
  Re.matcher search_flags block_tail st v = Some (st', r) ->
  exists r', Re.matcher search_flags block_tail st (v ++ u) = Some (st', r').
Proof.
  intros Hst H. pose proof (tail_shows_marker _ _ _ H) as Hm.
  destruct (first_end (lstrip v) (marker_in_lstrip v Hm))
    as (g & w & Hg & Hend & Hfirst).
  rewrite (tail_match st v g w Hst Hg Hfirst Hend) in H.
  injection H as <- _.
  pose proof (marker_at_lstrip w Hend) as Hw.
  eexists. apply (tail_match st (v ++ u) g (w ++ u)).
  - exact Hst.
  - destruct (marker_lstrip_app v u Hm) as [-> _].
    rewrite Hg, <- app_assoc. reflexivity.
  - intros g1 x g2 E.
    change (x :: g2 ++ w ++ u) with ((x :: g2) ++ w ++ u).
    rewrite app_assoc, marker_seen_app
      by (apply marker_in_app_l; exact Hw).
    apply (Hfirst g1 x g2 E).
  - rewrite marker_seen_app by exact Hw. exact Hend.
Qed.

(** A match of a block pattern at the head of a text is the match at the
    head of every longer text. *)
Lemma block_match_app (header : string) (s u : str) (st : Re.mstate)
    (r : str) :
  Re.matcher search_flags (Re.lits header ++ block_tail) Re.init s
  = Some (st, r) ->
  exists r',
    Re.matcher search_flags (Re.lits header ++ block_tail) Re.init (s ++ u)
    = Some (st, r').
Proof.
  rewrite !lits_app, !matcher_lits by reflexivity.
  destruct (startswith (lower (txt header)) (lower s)) eqn:E; [|discriminate].
  intros H. rewrite lower_app, (startswith_app_l _ _ _ E).
  apply startswith_length in E. rewrite !lower_length in E.
  rewrite skipn_app.
  replace (length (txt header) - length s) with 0 by lia.
  change (drop 0 u) with u.
  apply (tail_app _ _ _ _ r); [reflexivity | exact H].
Qed.

Lemma search_unfold (fl : Re.flags) (p : Re.pattern) (s : str) :
  Re.search fl p s
  = match Re.matcher fl p Re.init s with
    | Some (st, _) => Some st
    | None => match s with
              | [] => None
              | _ :: s' => Re.search fl p s'
              end
    end.
Proof. destruct s; reflexivity. Qed.

(** A block pattern that matches further on in a text shows a header there
    and an end marker after it. *)
Lemma search_header_marker (header : string) (s : str) (st : Re.mstate) :
  Re.search search_flags (Re.lits header ++ block_tail) s = Some st ->
  exists n,
    begins_ci (txt header) (skipn n s) = true /\
    marker_in (skipn (length (txt header)) (skipn n s)).
Proof.
  intros H. apply search_Some in H as (n & rest & H).
  rewrite lits_app, matcher_lits in H by reflexivity.
  exists n. unfold begins_ci.
  destruct (startswith _ _); [|discriminate].
  split; [reflexivity|]. apply (tail_shows_marker _ _ _ H).
Qed.

(** The leftmost match of a block pattern in a text is its leftmost match
    in every longer text. *)
Lemma search_app (header : string) (s u : str) (st : Re.mstate) :
  Re.search search_flags (Re.lits header ++ block_tail) s = Some st ->
  Re.search search_flags (Re.lits header ++ block_tail) (s ++ u) = Some st.
Proof.
  induction s as [|x s IH]; intros H; rewrite search_unfold in H.
  - destruct (Re.matcher _ _ Re.init []) as [[st' r]|] eqn:E;
      [|discriminate].
    injection H as ->.
    destruct (block_match_app header [] u st r E) as [r' E'].
    rewrite search_unfold, E'. reflexivity.
  - destruct (Re.matcher _ _ Re.init (x :: s)) as [[st' r]|] eqn:E.
    + injection H as ->.
      destruct (block_match_app header (x :: s) u st r E) as [r' E'].
      rewrite search_unfold, E'. reflexivity.
    + rewrite search_unfold. cbn [app]. rewrite (IH H).
      replace (Re.matcher search_flags (Re.lits header ++ block_tail)
                 Re.init (x :: s ++ u)) with (@None (Re.mstate * str));
        [reflexivity|].
      symmetry.
      destruct (search_header_marker header s st H) as (n & Hb & Hm).
      rewrite lits_app, matcher_lits in E |- * by reflexivity.
      change (x :: s ++ u) with ((x :: s) ++ u).
      assert (length (txt header) <= length (x :: s)) as Hlen.
      { apply startswith_length in Hb.
        rewrite !lower_length, length_drop in Hb. cbn [length]. lia. }
      rewrite lower_app, startswith_app_long
        by (rewrite !lower_length; exact Hlen).
      destruct (startswith (lower (txt header)) (lower (x :: s)));
        [|reflexivity].
      exfalso.
      destruct (tail_complete Re.init (skipn (length (txt header)) (x :: s)))
        as [r' Hr']; [reflexivity| |congruence].
      destruct Hm as [m Hm]. exists (S n + m).
      rewrite drop_drop. rewrite !drop_drop in Hm.
      replace (length (txt header) + (S n + m))
        with (S (n + (length (txt header) + m))) by lia.
      exact Hm.
Qed.

(** The content as parsed, of a content with further lines: the content as
    parsed, and more. *)
Lemma strip_comments_app_nl (content t : str) :
  exists u,
    strip_comments (content ++ nl ++ t) = strip_comments content ++ u.
Proof.
  rewrite !strip_comments_split, split_app_nl, map_app, List.filter_app.
  set (kc := List.filter keep_line (map strip (split nl content))).
  set (kt := List.filter keep_line (map strip (split nl t))).
  destruct kt as [|l kt]; [exists []; rewrite !app_nil_r; reflexivity|].
  destruct kc as [|l' kc]; [eexists; reflexivity|].
  eexists. apply join_app; discriminate.
Qed.

(** X7.  The first block wins.  When a content gives premises, the content
    followed by further lines gives the same premises; when it gives a
    conclusion, the content followed by further lines gives the same
    conclusion.  A second block of the same kind changes nothing. *)
Theorem first_blocks_win (content t : str) :
  (fst (parse_content content) <> [] ->
   fst (parse_content (content ++ nl ++ t)) = fst (parse_content content))
  /\
  (snd (parse_content content) <> None ->
   snd (parse_content (content ++ nl ++ t)) = snd (parse_content content)).
Proof.
  destruct (strip_comments_app_nl content t) as [u E].
  unfold parse_content. rewrite E. cbn [fst snd].
  change assumptions_re with (Re.lits "formulas(assumptions)." ++ block_tail).
  change goals_re with (Re.lits "formulas(goals)." ++ block_tail).
  split; intros H.
  - destruct (Re.search search_flags
                (Re.lits "formulas(assumptions)." ++ block_tail)
                (strip_comments content)) as [st|] eqn:Es; [|congruence].
    rewrite (search_app _ _ u _ Es). reflexivity.
  - destruct (Re.search search_flags
                (Re.lits "formulas(goals)." ++ block_tail)
                (strip_comments content)) as [st|] eqn:Es; [|congruence].
    rewrite (search_app _ _ u _ Es). reflexivity.
Qed.

Lemma first_blocks_win_witness :
  fst (parse_content syllogism_text) <> [] /\
  snd (parse_content syllogism_text) <> None /\
  parse_content (syllogism_text ++ nl ++ MoreFixtures.second_problem_text)
  = parse_content syllogism_text.
Proof.
  assert (fst (parse_content syllogism_text) <> []) as H1
    by (vm_compute; discriminate).
  assert (snd (parse_content syllogism_text) <> None) as H2
    by (vm_compute; discriminate).
  split; [exact H1|]. split; [exact H2|].
  destruct (first_blocks_win syllogism_text MoreFixtures.second_problem_text)
    as [Hp Hc].
  apply injective_projections; [exact (Hp H1) | exact (Hc H2)].
Defined.

End FirstBlock.
(** * Further properties of the synthesizer *)

Section WrittenText.
Import Notions PyStr Py Server Fixtures.

Lemma terminated_idem (p : str) : terminated (terminated p) = terminated p.
Proof.
  unfold terminated at 1. rewrite terminated_endswith. reflexivity.
Qed.

(** X8.  The final period of a formula is optional.  The text written for
    formulas that already carry the period that [_create_input_file] would
    add is the text written for the formulas as given. *)
Theorem input_content_terminated (premises : list str) (goal : str) :
  input_content (map terminated premises) (terminated goal)
  = input_content premises goal.
Proof.
  unfold input_content, content_lines.
  rewrite map_map, terminated_idem.
  rewrite (map_ext (fun p => terminated (terminated p)) terminated)
    by apply terminated_idem.
  reflexivity.
Qed.

Lemma terminated_no_nl (p : str) :
  has_chr "010" p = false -> has_chr "010" (terminated p) = false.
Proof.
  intros H. unfold terminated. destruct (endswith (txt ".") p); [exact H|].
  rewrite has_chr_app, H. reflexivity.
Qed.

Lemma content_lines_no_nl (premises : list str) (goal : str) :
  Forall (fun p => has_chr "010" p = false) premises ->
  has_chr "010" goal = false ->
  Forall (fun l => has_chr "010" l = false) (content_lines premises goal).
Proof.
  intros Hp Hg. unfold content_lines. apply Forall_app. split.
  - repeat constructor.
  - apply Forall_app. split.
    + apply List.Forall_forall. intros l Hl.
      apply in_map_iff in Hl as (p & <- & Hin).
      apply terminated_no_nl. rewrite List.Forall_forall in Hp. auto.
    + repeat constructor. apply terminated_no_nl. exact Hg.
Qed.

(** X9.  For premises and a goal without a line break, the text that
    [_create_input_file] writes has the lines of the list [content] and no
    others: one line per premise and six more, the premise of index [i] on
    the line of index [i + 1], the goal on the line of index [n + 4], and
    no line break after the last line. *)
Theorem input_content_lines (premises : list str) (goal : str) :
  Forall (fun p => has_chr "010" p = false) premises ->
  has_chr "010" goal = false ->
  split (txt NL) (input_content premises goal) = content_lines premises goal
  /\ length (split (txt NL) (input_content premises goal))
     = length premises + 6
  /\ (forall i p, nth_error premises i = Some p ->
        nth_error (split (txt NL) (input_content premises goal)) (S i)
        = Some (terminated p))
  /\ nth_error (split (txt NL) (input_content premises goal))
       (length premises + 4) = Some (terminated goal)
  /\ endswith (txt NL) (input_content premises goal) = false.
Proof.
  intros Hp Hg.
  assert (split (txt NL) (input_content premises goal)
          = content_lines premises goal) as E.
  { unfold input_content.
    pose proof (content_lines_no_nl premises goal Hp Hg) as Hfree.
    change (content_lines premises goal)
      with (txt "formulas(assumptions)."
            :: (map terminated premises
                ++ [txt "end_of_list."; txt ""; txt "formulas(goals).";
                    terminated goal; txt "end_of_list."])) in *.
    apply (split_join "010"). exact Hfree. }
  rewrite E. split; [reflexivity|]. split; [|split; [|split]].
  - unfold content_lines. rewrite !length_app, length_map. simpl. lia.
  - intros i p Hi. apply content_lines_premise. exact Hi.
  - apply content_lines_goal.
  - unfold endswith, input_content, content_lines.
    change ([txt "formulas(assumptions)."] ++ map terminated premises
            ++ [txt "end_of_list."; txt ""; txt "formulas(goals).";
                terminated goal; txt "end_of_list."])
      with ((txt "formulas(assumptions)." :: map terminated premises)
            ++ [txt "end_of_list."; txt ""; txt "formulas(goals).";
                terminated goal] ++ [txt "end_of_list."]).
    rewrite app_assoc, join_app; [|destruct premises; discriminate
                                  |discriminate].
    cbn [join]. rewrite !rev_app_distr. reflexivity.
Qed.

Lemma input_content_lines_witness :
  Forall (fun p => has_chr "010" p = false) syllogism_premises /\
  has_chr "010" syllogism_goal = false /\
  length (split (txt NL) (input_content syllogism_premises syllogism_goal))
  = 8.
Proof.
  assert (Forall (fun p => has_chr "010" p = false) syllogism_premises) as Hp
    by (repeat constructor).
  split; [exact Hp|]. split; [reflexivity|].
  exact (proj1 (proj2 (input_content_lines syllogism_premises syllogism_goal
                         Hp eq_refl))).
Defined.

End WrittenText.

(** * Further properties of the runner *)

Section ProofField.
Import Notions PyStr Py Server Fixtures.

(** The text before the first occurrence of a separator does not hold the
    separator. *)
Lemma before_free (sep s : str) :
  sep <> [] -> contains sep (before sep s) = false.
Proof.
  intros Hsep. unfold before.
  destruct (partition sep s) as [[a b]|] eqn:E.
  - apply partition_Some in E as [-> Hn].
    destruct (contains sep a) eqn:Ec; [|reflexivity]. exfalso.
    apply contains_spec in Ec as (pre & post & ->).
    pose proof (Hn (length pre)) as H.
    rewrite <- !app_assoc, drop_app_length, startswith_app in H.
    assert (length pre < length (pre ++ sep ++ post)) as Hlt.
    { rewrite !length_app. destruct sep; [congruence|]. simpl. lia. }
    specialize (H Hlt). discriminate.
  - apply partition_None. exact E.
Qed.

(** The text before the first occurrence of a separator begins the text. *)
Lemma before_prefix (sep s : str) : exists r, s = before sep s ++ r.
Proof.
  unfold before. destruct (partition sep s) as [[a b]|] eqn:E.
  - apply partition_Some in E as [-> _]. eauto.
  - exists []. rewrite app_nil_r. reflexivity.
Qed.

Lemma contains_strip (p s : str) :
  contains p s = false -> contains p (strip s) = false.
Proof.
  intros H. destruct (contains p (strip s)) eqn:E; [|reflexivity].
  destruct (strip_decompose s) as (a & b & _ & _ & Es).
  rewrite Es, (contains_infix _ _ a b E) in H. discriminate.
Qed.

Lemma contains_before (p sep s : str) :
  contains p s = false -> contains p (before sep s) = false.
Proof.
  intros H. destruct (contains p (before sep s)) eqn:E; [|reflexivity].
  destruct (before_prefix sep s) as [r Er].
  rewrite Er, (contains_prefix _ _ r E) in H. discriminate.
Qed.

(** X10.  The proof text of a run classified as proved is clean: it has no
    white space at its two ends and holds neither the marker "PROOF =" nor
    a row of four "=". *)
Theorem proved_proof_clean (result : CompletedProcess) (d : dict) :
  contains (txt "THEOREM PROVED") (stdout result) = true ->
  classify result = Ret d ->
  d !! "result" = Some (txt "proved") /\
  exists proof,
    d !! "proof" = Some proof /\
    strip proof = proof /\
    contains (txt "PROOF =") proof = false /\
    contains (txt "====") proof = false.
Proof.
  destruct result as [out err]. cbn [stdout]. intros Hp Hc.
  rewrite classify_theorem_proved in Hc by exact Hp.
  destruct (partition (txt "PROOF =") out) as [[pre rest]|]; [|discriminate].
  injection Hc as <-. split; [reflexivity|].
  eexists. split; [reflexivity|]. split; [apply strip_idem|]. split.
  - apply contains_strip, contains_before, before_free. discriminate.
  - apply contains_strip, before_free. discriminate.
Qed.

Lemma proved_proof_clean_witness :
  contains (txt "THEOREM PROVED") proved_fixture = true /\
  exists d,
    classify {| stdout := proved_fixture; stderr := [] |} = Ret d /\
    exists proof,
      d !! "proof" = Some proof /\
      contains (txt "====") proof = false.
Proof.
  split; [reflexivity|].
  eexists. split; [reflexivity|].
  destruct (proved_proof_clean {| stdout := proved_fixture; stderr := [] |}
              _ eq_refl eq_refl) as (_ & proof & Hd & _ & _ & Hr).
  exists proof. split; [exact Hd | exact Hr].
Defined.

End ProofField.

Section ResultField.
Import Notions MoreNotions PyStr Py Server Fixtures.

Variable mkstemp : string -> world -> string.

Variable subprocess_run :
  list string -> Z -> string -> world -> outcome CompletedProcess * world.

(** The run as one equation: the dictionary of the [try] and its handlers,
    and the file system after the [finally] block. *)
Lemma run_prover_answer (self : LogicEngine) (input_path : string)
    (timeout : Z) (w : world) :
  returns_or_raises_Exception
    (fst (launch subprocess_run self input_path timeout w)) = true ->
  _run_prover subprocess_run self input_path timeout w
  = (Ret (answer timeout
            (fst (launch subprocess_run self input_path timeout w))),
     after_cleanup input_path
       (snd (launch subprocess_run self input_path timeout w))).
Proof.
  intros H. unfold _run_prover, try_finally, try_except, bind, lift.
  destruct (launch subprocess_run self input_path timeout w) as [o w1].
  cbn [fst snd] in *.
  destruct o as [result|e]; cbn [answer returns_or_raises_Exception] in *.
  - destruct (classify result) as [d|e] eqn:Ec.
    + rewrite cleanup_spec. reflexivity.
    + apply classify_raises in Ec as Hcls. cbn [handle]. rewrite Hcls.
      cbn. rewrite cleanup_spec. reflexivity.
  - cbn [handle]. destruct (issubclass (cls e) TimeoutExpired).
    + cbn. rewrite cleanup_spec. reflexivity.
    + rewrite H. cbn. rewrite cleanup_spec. reflexivity.
Qed.

Lemma classify_well_shaped (result : CompletedProcess) (d : dict) :
  classify result = Ret d -> well_shaped d.
Proof.
  destruct result as [out err]. intros H.
  destruct (contains (txt "THEOREM PROVED") out) eqn:Ep.
  - rewrite classify_theorem_proved in H by exact Ep.
    destruct (partition _ _) as [[pre rest]|]; [|discriminate].
    injection H as <-. left. repeat split. eexists. reflexivity.
  - rewrite classify_not_proved in H by exact Ep.
    destruct (contains (txt "SEARCH FAILED") out);
      [|destruct (contains (txt "Fatal error") err)];
      injection H as <-; right;
      (split; [|split; [eexists; reflexivity | reflexivity]]); auto.
Qed.

Lemma answer_well_shaped (timeout : Z) (o : outcome CompletedProcess) :
  well_shaped (answer timeout o).
Proof.
  destruct o as [result|e]; cbn [answer].
  - destruct (classify result) as [d|e] eqn:Ec.
    + apply (classify_well_shaped result). exact Ec.
    + right. split; [|split; [eexists; reflexivity | reflexivity]]. auto.
  - destruct (issubclass (cls e) TimeoutExpired);
      right; (split; [|split; [eexists; reflexivity | reflexivity]]); auto.
Qed.

(** X11.  Whatever the external program and the operating system do, short of
    an exception outside [Exception], the dictionary that [_run_prover]
    returns has a "result" that is one of "proved", "unprovable", "error"
    and "timeout"; with "proved" it has a "proof" and no "reason", with the
    three others a "reason" and no "proof". *)
Theorem run_prover_result_field (self : LogicEngine) (input_path : string)
    (timeout : Z) (w : world) :
  returns_or_raises_Exception
    (fst (launch subprocess_run self input_path timeout w)) = true ->
  exists d,
    fst (_run_prover subprocess_run self input_path timeout w) = Ret d /\
    ((d !! "result" = Some (txt "proved")
      /\ is_Some (d !! "proof") /\ d !! "reason" = None)
     \/ ((d !! "result" = Some (txt "unprovable")
          \/ d !! "result" = Some (txt "error")
          \/ d !! "result" = Some (txt "timeout"))
         /\ is_Some (d !! "reason") /\ d !! "proof" = None)).
Proof.
  intros H. rewrite run_prover_answer by exact H. cbn [fst].
  eexists. split; [reflexivity|]. apply answer_well_shaped.
Qed.








(** The two ways of [_create_input_file]: the text is written to the file
    that [mkstemp] made, or the encoding of the locale refuses the text and
    the file stays empty. *)
Lemma create_input_file_written (premises : list str) (goal : str)
    (w : world) :
  encoding_failure w (input_content premises goal) = None ->
  _create_input_file mkstemp premises goal w
  = (Ret (mkstemp ".in" w),
     {| files := <[mkstemp ".in" w :=
                     universal_newlines (input_content premises goal)]>
                   (<[mkstemp ".in" w := []]> (files w));
        locked := locked w;
        encode_error := encode_error w |}).
Proof.
  intros H. unfold _create_input_file, bind, write_file.
  change (encoding_failure w []) with (@None str). cbn match.
  unfold encoding_failure in *. cbn [encode_error]. rewrite H. reflexivity.
Qed.

Lemma create_input_file_refused (premises : list str) (goal : str)
    (w : world) (text : str) :
  encoding_failure w (input_content premises goal) = Some text ->
  _create_input_file mkstemp premises goal w
  = (Raise {| cls := UnicodeEncodeError; message := text |},
     {| files := <[mkstemp ".in" w := []]> (files w);
        locked := locked w;
        encode_error := encode_error w |}).
Proof.
  intros H. unfold _create_input_file, bind, write_file.
  change (encoding_failure w []) with (@None str). cbn match.
  unfold encoding_failure in *. cbn [encode_error]. rewrite H. reflexivity.
Qed.

(** Making the input file at a free path and removing it gives the file
    system back. *)
Lemma created_then_cleaned (path : string) (c0 c : str) (w : world) :
  files w !! path = None ->
  locked w !! path = None ->
  after_cleanup path
    {| files := <[path := c]> (<[path := c0]> (files w));
       locked := locked w;
       encode_error := encode_error w |}
  = w.
Proof.
  intros Hfree Hlock. unfold after_cleanup. cbn [files locked encode_error].
  rewrite Hlock. destruct w as [fs lk enc].
  cbn [files locked encode_error] in *. f_equal.
  rewrite !delete_insert_eq. apply delete_id. exact Hfree.
Qed.

(** X12.  An input file made by [_create_input_file] and handed to
    [_run_prover] is gone after the run, and the file system is the one
    from before the file was made -- when the encoding of the locale takes
    the text (as every encoding takes a text of ASCII characters), the
    path that [mkstemp] gives was free, the removal of the file is not
    refused, and the external program leaves the file system as it finds
    it.  (That the operating system lets the file be made and written is
    taken for granted here, as everywhere.) *)
Theorem create_then_run_restores (self : LogicEngine)
    (premises : list str) (goal : str) (timeout : Z) (w : world) :
  encoding_failure w (input_content premises goal) = None ->
  files w !! mkstemp ".in" w = None ->
  locked w !! mkstemp ".in" w = None ->
  (forall w1, snd (launch subprocess_run self (mkstemp ".in" w) timeout w1)
              = w1) ->
  (forall w1, returns_or_raises_Exception
                (fst (launch subprocess_run self (mkstemp ".in" w) timeout w1))
              = true) ->
  exists w1 d,
    _create_input_file mkstemp premises goal w = (Ret (mkstemp ".in" w), w1)
    /\ is_Some (files w1 !! mkstemp ".in" w)
    /\ _run_prover subprocess_run self (mkstemp ".in" w) timeout w1
       = (Ret d, w).
Proof.
  intros Henc Hfree Hlock Hkeep Hexn.
  rewrite (create_input_file_written premises goal w Henc).
  eexists _, _. split; [reflexivity|]. split.
  - cbn [files]. rewrite lookup_insert_eq. eexists. reflexivity.
  - rewrite run_prover_answer by apply Hexn. rewrite Hkeep.
    f_equal. apply created_then_cleaned; assumption.
Qed.

End ResultField.

Section ResultFieldWitness.
Import Notions PyStr Py Server Fixtures MoreFixtures.

Lemma run_prover_result_field_witness :
  returns_or_raises_Exception
    (fst (launch (completes proved_fixture []) engine "/tmp/tmpq1w2e3.in" 60
            world_with_input)) = true /\
  exists d,
    fst (_run_prover (completes proved_fixture []) engine
           "/tmp/tmpq1w2e3.in" 60 world_with_input) = Ret d /\
    d !! "result" = Some (txt "proved").
Proof.
  split; [reflexivity|].
  destruct (run_prover_result_field (completes proved_fixture []) engine
              "/tmp/tmpq1w2e3.in" 60 world_with_input eq_refl)
    as (d & Hd & _).
  exists d. split; [exact Hd|].
  injection Hd as <-. reflexivity.
Defined.

Lemma create_then_run_restores_witness :
  encoding_failure empty_world
    (input_content syllogism_premises syllogism_goal) = None /\
  files empty_world !! temp_path ".in"%string empty_world = None /\
  exists w1 d,
    _create_input_file temp_path syllogism_premises syllogism_goal empty_world
    = (Ret (temp_path ".in"%string empty_world), w1) /\
    _run_prover (completes proved_fixture []) engine
      (temp_path ".in"%string empty_world) 60 w1
    = (Ret d, empty_world).
Proof.
  split; [reflexivity|]. split; [reflexivity|].
  destruct (create_then_run_restores temp_path
              (completes proved_fixture []) engine
              syllogism_premises syllogism_goal 60 empty_world)
    as (w1 & d & Hc & _ & Hr).
  - reflexivity.
  - reflexivity.
  - reflexivity.
  - intros w1. reflexivity.
  - intros w1. reflexivity.
  - exists w1, d. split; [exact Hc | exact Hr].
Defined.

End ResultFieldWitness.

(** * Properties of the functions that read a file *)

Section FileRoundTrip.
Import Notions MoreNotions PyStr Py FileParser Server Fixtures FileReader.




(** Without the condition on carriage returns the file is not read back as
    written: the premise "p(a)\rq(b)" is plain and ASCII, and comes back
    with a line feed in the place of the carriage return. *)
Example carriage_return_read_as_line_feed :
  let premise := txt "p(a)" ++ ["013"%char] ++ txt "q(b)" in
  is_ascii premise = true /\
  plain_premise premise = true /\
  exists path w',
    _create_input_file MoreFixtures.temp_path [premise] syllogism_goal
      MoreFixtures.empty_world = (Ret path, w') /\
    parse_prover9_file path w'
    = (Ret ([txt "p(a)" ++ ["010"%char] ++ txt "q(b)"], Some syllogism_goal),
       w').
Proof.
  cbv zeta. split; [reflexivity|]. split; [reflexivity|].
  eexists _, _. split; [reflexivity|]. vm_compute. reflexivity.
Qed.

End FileRoundTrip.

(** * Properties of the tool [prove] *)

Section ProveTool.
Import Notions PyStr Py FileParser Server Fixtures FileReader Tool.

Variable Validation : Type.
Variable validate_formulas : list str -> Validation.
Variable valid : Validation -> bool.
Variable mkstemp : string -> world -> string.
Variable subprocess_run :
  list string -> Z -> string -> world -> outcome CompletedProcess * world.
Variable engine : LogicEngine.

Lemma txt_app (a b : string) : txt (a +:+ b) = txt a ++ txt b.
Proof.
  induction a as [|c a IH]; [reflexivity|].
  simpl. f_equal. exact IH.
Qed.

(** The formulas of a file that is there. *)
Lemma extract_file (a : arguments) (file_path : string) (content : str)
    (w : world) :
  input_file a = Some file_path ->
  files w !! file_path = Some content ->
  _extract_formulas_from_input a w = (Done (parse_content content), w).
Proof.
  intros Hf Hc. unfold _extract_formulas_from_input. rewrite Hf.
  unfold try_except_Exception, run, parse_prover9_file,
    Prover9FileParser.parse_file.
  rewrite Hc. reflexivity.
Qed.

(** The failure on a file that is not there. *)
Lemma extract_missing (a : arguments) (file_path : string) (w : world) :
  input_file a = Some file_path ->
  files w !! file_path = None ->
  _extract_formulas_from_input a w
  = (Failed (ValueError
               (txt ("Failed to parse input file " +:+ file_path +:+
                     ": File not found: " +:+ file_path))), w).
Proof.
  intros Hf Hc. unfold _extract_formulas_from_input. rewrite Hf.
  unfold try_except_Exception, run, parse_prover9_file,
    Prover9FileParser.parse_file.
  rewrite Hc. cbn [is_Exception cls].
  change (issubclass FileNotFoundError Exception) with true. cbn match.
  unfold fail, failed_to_parse, str_of. cbn [message].
  rewrite !txt_app, <- !app_assoc. reflexivity.
Qed.

(** Resolving the formulas leaves the file system as it is. *)
Lemma extract_world (a : arguments) (w : world) :
  snd (_extract_formulas_from_input a w) = w.
Proof.
  unfold _extract_formulas_from_input.
  destruct (input_file a) as [file_path|]; [|reflexivity].
  unfold try_except_Exception, run, parse_prover9_file,
    Prover9FileParser.parse_file.
  destruct (files w !! file_path); [reflexivity|].
  cbn [is_Exception cls].
  change (issubclass FileNotFoundError Exception) with true. reflexivity.
Qed.

Lemma extract_resolved (a : arguments) (w : world)
    (r : list str * option str) :
  fst (_extract_formulas_from_input a w) = Done r ->
  _extract_formulas_from_input a w = (Done r, w).
Proof.
  intros H. pose proof (extract_world a w) as Hw.
  destruct (_extract_formulas_from_input a w) as [o w'].
  cbn [fst snd] in *. subst. reflexivity.
Qed.

(** X14.  The tool "prove", called with an [input_file] that is not there,
    replies with the dictionary whose "error" is "Failed to parse input
    file P: File not found: P" and whose "type" is "ValueError", whatever
    its other arguments; nothing is written and no program is started. *)
Theorem prove_missing_file (a : arguments) (file_path : string) (w : world) :
  input_file a = Some file_path ->
  files w !! file_path = None ->
  handle_call_tool_prove Validation validate_formulas valid mkstemp
    subprocess_run engine a w
  = (Done (Texts (list_to_map
                    [("error",
                      txt ("Failed to parse input file " +:+ file_path +:+
                           ": File not found: " +:+ file_path));
                     ("type", txt "ValueError")])),
     w).
Proof.
  intros Hf Hc.
  unfold handle_call_tool_prove, try_except_Exception, prove_branch, and_then.
  rewrite (extract_missing a file_path w Hf Hc). reflexivity.
Qed.

(** X15.  The file comes first.  The tool "prove", called with an
    [input_file] whose content has no conclusion, replies with the error
    "No conclusion found in input. ..." even when a conclusion is among its
    arguments; nothing is written and no program is started. *)
Theorem prove_file_without_goal (a : arguments) (file_path : string)
    (content : str) (w : world) :
  input_file a = Some file_path ->
  files w !! file_path = Some content ->
  snd (parse_content content) = None ->
  handle_call_tool_prove Validation validate_formulas valid mkstemp
    subprocess_run engine a w
  = (Done (Texts no_conclusion_reply), w).
Proof.
  intros Hf Hc Hn.
  unfold handle_call_tool_prove, try_except_Exception, prove_branch, and_then.
  rewrite (extract_file a file_path content w Hf Hc).
  destruct (parse_content content) as [ps c]. cbn [snd] in Hn. subst c.
  reflexivity.
Qed.

(** X16.  Formulas that [validate_formulas] does not find valid are answered
    with the result "syntax_error" and the validation itself; no input file
    is made and no program is started. *)
Theorem prove_invalid (a : arguments) (ps : list str) (c : str) (w : world) :
  fst (_extract_formulas_from_input a w) = Done (ps, Some c) ->
  valid (validate_formulas (ps ++ [c])) = false ->
  handle_call_tool_prove Validation validate_formulas valid mkstemp
    subprocess_run engine a w
  = (Done (Syntax_error (validate_formulas (ps ++ [c]))), w).
Proof.
  intros He Hv.
  unfold handle_call_tool_prove, try_except_Exception, prove_branch, and_then.
  rewrite (extract_resolved a w _ He). rewrite Hv. reflexivity.
Qed.

(** X17.  A call with an [input_file] is the call with the premises and the
    conclusion that [parse_content] finds in the file: the same reply and
    the same file system afterwards. *)
Theorem prove_file_as_inline (a : arguments) (file_path : string)
    (content : str) (w : world) :
  input_file a = Some file_path ->
  files w !! file_path = Some content ->
  handle_call_tool_prove Validation validate_formulas valid mkstemp
    subprocess_run engine a w
  = handle_call_tool_prove Validation validate_formulas valid mkstemp
      subprocess_run engine
      {| input_file := None;
         premises := Some (fst (parse_content content));
         conclusion := snd (parse_content content) |} w.
Proof.
  intros Hf Hc.
  unfold handle_call_tool_prove, try_except_Exception, prove_branch, and_then.
  rewrite (extract_file a file_path content w Hf Hc).
  unfold _extract_formulas_from_input. cbn [input_file premises conclusion].
  destruct (parse_content content) as [ps c]. reflexivity.
Qed.

(** X18.  Valid formulas are proved through an input file that is made for
    them and removed again.  The reply is the dictionary of [_run_prover]
    on that file, and the file system after the call is the one before it
    -- when the encoding of the locale takes the text of the formulas (as
    every encoding takes a text of ASCII characters), the path that
    [mkstemp] gives was free, the removal of the file is not refused, and
    the external program leaves the file system as it finds it and raises
    no exception outside [Exception].  (That the operating system lets the
    file be made and written is taken for granted here, as everywhere.) *)
Theorem prove_valid (a : arguments) (ps : list str) (c : str) (w : world) :
  fst (_extract_formulas_from_input a w) = Done (ps, Some c) ->
  valid (validate_formulas (ps ++ [c])) = true ->
  encoding_failure w (input_content ps c) = None ->
  files w !! mkstemp ".in" w = None ->
  locked w !! mkstemp ".in" w = None ->
  (forall w1, snd (launch subprocess_run engine (mkstemp ".in" w) 60 w1)
              = w1) ->
  (forall w1, returns_or_raises_Exception
                (fst (launch subprocess_run engine (mkstemp ".in" w) 60 w1))
              = true) ->
  exists w1 d,
    _create_input_file mkstemp ps c w = (Ret (mkstemp ".in" w), w1) /\
    fst (_run_prover subprocess_run engine (mkstemp ".in" w) 60 w1) = Ret d /\
    handle_call_tool_prove Validation validate_formulas valid mkstemp
      subprocess_run engine a w
    = (Done (Texts d), w).
Proof.
  intros He Hv Henc Hfree Hlock Hkeep Hexn.
  pose proof (create_input_file_written mkstemp ps c w Henc) as Hc.
  eexists _, _. split; [exact Hc|]. split.
  - rewrite run_prover_answer by apply Hexn. reflexivity.
  - unfold handle_call_tool_prove, try_except_Exception, prove_branch,
      and_then.
    rewrite (extract_resolved a w _ He). rewrite Hv. cbn [negb].
    unfold run at 1. rewrite Hc. unfold run.
    rewrite run_prover_answer by apply Hexn. rewrite Hkeep.
    unfold done. rewrite created_then_cleaned by assumption. reflexivity.
Qed.

(** X21.  A text that the encoding of the locale refuses costs a file.
    For valid formulas whose text the encoding refuses, the tool "prove"
    replies with the text of the [UnicodeEncodeError] as "error" and
    "UnicodeEncodeError" as "type"; no program is started, and the empty
    file that [mkstemp] made is left in the file system. *)
Theorem prove_unencodable_text (a : arguments) (ps : list str) (c : str)
    (w : world) (text : str) :
  fst (_extract_formulas_from_input a w) = Done (ps, Some c) ->
  valid (validate_formulas (ps ++ [c])) = true ->
  encoding_failure w (input_content ps c) = Some text ->
  _create_input_file mkstemp ps c w
  = (Raise {| cls := UnicodeEncodeError; message := text |},
     {| files := <[mkstemp ".in" w := []]> (files w);
        locked := locked w;
        encode_error := encode_error w |}) /\
  handle_call_tool_prove Validation validate_formulas valid mkstemp
    subprocess_run engine a w
  = (Done (Texts (list_to_map
                    [("error", text); ("type", txt "UnicodeEncodeError")])),
     {| files := <[mkstemp ".in" w := []]> (files w);
        locked := locked w;
        encode_error := encode_error w |}).
Proof.
  intros He Hv Henc.
  pose proof (create_input_file_refused mkstemp ps c w text Henc) as Hc.
  split; [exact Hc|].
  unfold handle_call_tool_prove, try_except_Exception, prove_branch, and_then.
  rewrite (extract_resolved a w _ He). rewrite Hv. cbn [negb].
  unfold run at 1. rewrite Hc. reflexivity.
Qed.

(** The branch fails with nothing but an exception of [Exception]. *)
Lemma prove_branch_fails (a : arguments) (w : world) :
  (forall argv t cwd w1,
     returns_or_raises_Exception (fst (subprocess_run argv t cwd w1)) = true)
  ->
  match fst (prove_branch Validation validate_formulas valid mkstemp
               subprocess_run engine a w) with
  | Done _ => True
  | Failed e => is_Exception e = true
  end.
Proof.
  intros Hexn. unfold prove_branch, and_then.
  destruct (_extract_formulas_from_input a w) as [[[ps [c|]]|e] w1] eqn:Ee.
  - destruct (negb _); [exact I|].
    unfold run at 1.
    destruct (encoding_failure w1 (input_content ps c)) as [text|] eqn:Henc.
    + rewrite (create_input_file_refused mkstemp ps c w1 text Henc).
      reflexivity.
    + rewrite (create_input_file_written mkstemp ps c w1 Henc). unfold run.
      rewrite run_prover_answer by apply Hexn. exact I.
  - exact I.
  - cbn [fst]. unfold _extract_formulas_from_input in Ee.
    destruct (input_file a) as [file_path|]; [|discriminate].
    unfold try_except_Exception, run, parse_prover9_file,
      Prover9FileParser.parse_file in Ee.
    destruct (files w !! file_path); [discriminate|].
    cbn [is_Exception cls] in Ee.
    change (issubclass FileNotFoundError Exception) with true in Ee.
    cbn match in Ee. injection Ee as <- _. reflexivity.
Qed.

(** X19.  The tool "prove" always replies.  Whatever the arguments and the
    file system, and whatever the external program does short of raising an
    exception outside [Exception], the call returns an object for
    [json.dumps] and raises nothing. *)
Theorem prove_always_replies (a : arguments) (w : world) :
  (forall argv t cwd w1,
     returns_or_raises_Exception (fst (subprocess_run argv t cwd w1)) = true)
  ->
  exists r w',
    handle_call_tool_prove Validation validate_formulas valid mkstemp
      subprocess_run engine a w
    = (Done r, w').
Proof.
  intros Hexn. pose proof (prove_branch_fails a w Hexn) as H.
  unfold handle_call_tool_prove, try_except_Exception.
  destruct (prove_branch _ _ _ _ _ _ a w) as [[r|e] w1]; cbn [fst] in H.
  - eauto.
  - rewrite H. unfold done. eauto.
Qed.

(** X20.  The premises that [_extract_premises_from_input] resolves (for the
    model finder) are the premises that [_extract_formulas_from_input]
    resolves (for the prover), from the arguments as from a file, and the
    one fails when and as the other does. *)
Theorem extract_premises_agrees (a : arguments) (w : world) :
  _extract_premises_from_input a w
  = match _extract_formulas_from_input a w with
    | (Done (ps, _), w') => (Done ps, w')
    | (Failed e, w') => (Failed e, w')
    end.
Proof.
  unfold _extract_premises_from_input, _extract_formulas_from_input.
  destruct (input_file a) as [file_path|]; [|reflexivity].
  unfold try_except_Exception, run, parse_mace4_file, parse_prover9_file,
    Prover9FileParser.parse_mace4_file, bind, Prover9FileParser.parse_file.
  destruct (files w !! file_path) as [content|].
  - destruct (parse_content content) as [ps c]. reflexivity.
  - cbn [is_Exception cls].
    change (issubclass FileNotFoundError Exception) with true. reflexivity.
Qed.

End ProveTool.

Section ProveToolWitnesses.
Import Notions PyStr Py FileParser Server Fixtures FileReader Tool.
Import MoreFixtures.

Lemma prove_missing_file_witness :
  files empty_world !! "/home/u/none.in"%string = None /\
  handle_call_tool_prove bool accept its_valid temp_path
    (completes proved_fixture []) engine
    {| input_file := Some "/home/u/none.in"%string;
       premises := Some syllogism_premises;
       conclusion := Some syllogism_goal |} empty_world
  = (Done (Texts (list_to_map
                    [("error",
                      txt ("Failed to parse input file /home/u/none.in: " +:+
                           "File not found: /home/u/none.in"));
                     ("type", txt "ValueError")])),
     empty_world).
Proof.
  split; [reflexivity|].
  apply (prove_missing_file bool accept its_valid temp_path
           (completes proved_fixture []) engine
           {| input_file := Some "/home/u/none.in"%string;
              premises := Some syllogism_premises;
              conclusion := Some syllogism_goal |}
           "/home/u/none.in" empty_world);
    reflexivity.
Defined.

Lemma prove_file_without_goal_witness :
  files world_with_problems !! "/home/u/premises.in"%string
  = Some premises_only_text /\
  snd (parse_content premises_only_text) = None /\
  handle_call_tool_prove bool accept its_valid temp_path
    (completes proved_fixture []) engine
    {| input_file := Some "/home/u/premises.in"%string;
       premises := None;
       conclusion := Some syllogism_goal |} world_with_problems
  = (Done (Texts no_conclusion_reply), world_with_problems).
Proof.
  split; [reflexivity|]. split; [reflexivity|].
  apply (prove_file_without_goal bool accept its_valid temp_path
           (completes proved_fixture []) engine
           {| input_file := Some "/home/u/premises.in"%string;
              premises := None;
              conclusion := Some syllogism_goal |}
           "/home/u/premises.in" premises_only_text world_with_problems);
    reflexivity.
Defined.

Lemma prove_invalid_witness :
  fst (_extract_formulas_from_input inline_call empty_world)
  = Done (syllogism_premises, Some syllogism_goal) /\
  its_valid (reject (syllogism_premises ++ [syllogism_goal])) = false /\
  handle_call_tool_prove bool reject its_valid temp_path
    (completes proved_fixture []) engine inline_call empty_world
  = (Done (Syntax_error false), empty_world).
Proof.
  split; [reflexivity|]. split; [reflexivity|].
  apply (prove_invalid bool reject its_valid temp_path
           (completes proved_fixture []) engine inline_call
           syllogism_premises syllogism_goal empty_world);
    reflexivity.
Defined.

Lemma prove_file_as_inline_witness :
  files world_with_problems !! "/home/u/syllogism.in"%string
  = Some syllogism_text /\
  handle_call_tool_prove bool accept its_valid temp_path
    (completes proved_fixture []) engine
    (file_call "/home/u/syllogism.in") world_with_problems
  = handle_call_tool_prove bool accept its_valid temp_path
      (completes proved_fixture []) engine
      {| input_file := None;
         premises := Some (fst (parse_content syllogism_text));
         conclusion := snd (parse_content syllogism_text) |}
      world_with_problems.
Proof.
  split; [reflexivity|].
  apply (prove_file_as_inline bool accept its_valid temp_path
           (completes proved_fixture []) engine
           (file_call "/home/u/syllogism.in") "/home/u/syllogism.in"
           syllogism_text world_with_problems);
    reflexivity.
Defined.

Lemma prove_valid_witness :
  fst (_extract_formulas_from_input (file_call "/home/u/syllogism.in")
         world_with_problems)
  = Done (syllogism_premises, Some syllogism_goal) /\
  encoding_failure world_with_problems
    (input_content syllogism_premises syllogism_goal) = None /\
  files world_with_problems !! temp_path ".in"%string world_with_problems
  = None /\
  exists d,
    handle_call_tool_prove bool accept its_valid temp_path
      (completes proved_fixture []) engine
      (file_call "/home/u/syllogism.in") world_with_problems
    = (Done (Texts d), world_with_problems) /\
    d !! "result" = Some (txt "proved").
Proof.
  split; [vm_compute; reflexivity|]. split; [reflexivity|].
  split; [reflexivity|].
  destruct (prove_valid bool accept its_valid temp_path
              (completes proved_fixture []) engine
              (file_call "/home/u/syllogism.in")
              syllogism_premises syllogism_goal world_with_problems)
    as (w1 & d & _ & Hd & Hr).
  - vm_compute. reflexivity.
  - reflexivity.
  - reflexivity.
  - reflexivity.
  - reflexivity.
  - intros w1. reflexivity.
  - intros w1. reflexivity.
  - exists d. split; [exact Hr|].
    assert (classify {| stdout := proved_fixture; stderr := [] |}
            = Ret (proved_result
                     (txt "1 mortal(socrates). [resolve(2,a,3,a)]")
                     proved_fixture)) as Hc by reflexivity.
    unfold _run_prover, try_finally, try_except, bind, launch, completes,
      lift in Hd.
    rewrite Hc in Hd. rewrite cleanup_spec in Hd. cbn [fst] in Hd.
    injection Hd as <-. reflexivity.
Defined.

Lemma prove_unencodable_text_witness :
  fst (_extract_formulas_from_input accented_call ascii_locale)
  = Done ([accented_premise], Some syllogism_goal) /\
  encoding_failure ascii_locale
    (input_content [accented_premise] syllogism_goal)
  = Some ascii_codec_error /\
  exists w',
    handle_call_tool_prove bool accept its_valid temp_path
      (completes proved_fixture []) engine accented_call ascii_locale
    = (Done (Texts (list_to_map
                      [("error", ascii_codec_error);
                       ("type", txt "UnicodeEncodeError")])), w') /\
    files w' !! temp_path ".in"%string ascii_locale = Some [].
Proof.
  split; [reflexivity|]. split; [reflexivity|].
  destruct (prove_unencodable_text bool accept its_valid temp_path
              (completes proved_fixture []) engine accented_call
              [accented_premise] syllogism_goal ascii_locale
              ascii_codec_error eq_refl eq_refl eq_refl) as [_ Hr].
  eexists. split; [exact Hr|]. reflexivity.
Defined.

Lemma prove_always_replies_witness :
  (forall argv t cwd w1,
     returns_or_raises_Exception
       (fst (fails {| cls := PermissionError;
                      message := txt "Permission denied" |}
               argv t cwd w1)) = true) /\
  exists r w',
    handle_call_tool_prove bool accept its_valid temp_path
      (fails {| cls := PermissionError; message := txt "Permission denied" |})
      engine inline_call empty_world
    = (Done r, w').
Proof.
  split; [intros; reflexivity|].
  apply (prove_always_replies bool accept its_valid temp_path
           (fails {| cls := PermissionError;
                     message := txt "Permission denied" |})
           engine inline_call empty_world).
  intros. reflexivity.
Defined.

End ProveToolWitnesses.
